(** * Group allocation of the parking allocation tab

    Shallow embedding of [allocate_group]
    (src/ui/parking_allocation_tab.py, lines 625-655) and of the part of
    [reset_simulation] that writes the parking data (lines 531-533),
    followed by the other methods of the tab that work on the parking
    data: allocation, removal, reset, the data and the grid of the
    visualization, the statistics and the creation of the parking data.

    Modelling choices.
    - The parking data is a Python [dict] from space identifiers to
      records, themselves [dict]s from field names to arbitrary values.
      Iteration order of the outer dict decides ties, so it is an
      association list in insertion order; the records are finite maps
      ([gmap string pyval]).
    - Python values are dynamically typed: [pyval] has the shapes the
      records hold (None, bool, int, float, str, list/tuple).
    - Python's binary floating point numbers are modelled by exact
      rationals ([Q]): a [VFloat] is a finite float, and rounding,
      infinities and NaN are outside the model.  The [OverflowError] of a
      quotient of two ints that is too large for a float is inside.
      Scores are compared with [==] (equality of fractions).  Where
      rounding can turn a strict order of two rationals into a tie of two
      floats, the order of two scores is stated non-strictly, or strictly
      under bounds that keep the two apart.
    - Exceptions are explicit: expressions live in the [result] monad,
      the method itself in the state-and-exception monad [M] over the
      parking data held by [self].  The class of the file never assigns
      [self.parking_data] (the method is meant for the allocation class
      that owns the data), so the mapping is a parameter of the model. *)

From Stdlib Require Import ZArith QArith Qabs Qround Lqa Lia List Bool String.
From Stdlib Require Import DecimalString DecimalPos DecimalZ.
From stdpp Require Import base option list gmap strings.

Local Open Scope string_scope.

(** ** Python values and exceptions *)

#[warnings="-register-all"]
Inductive pyval : Type :=
| VNone
| VBool (b : bool)
| VInt (z : Z)
| VFloat (q : Q)
| VStr (s : string)
| VList (l : list pyval).

Inductive exn : Type :=
| KeyError (key : string)
| TypeError
| ZeroDivisionError
| OverflowError.

Inductive result (A : Type) : Type :=
| Ok (a : A)
| Raise (e : exn).

Arguments Ok {A} a.
Arguments Raise {A} e.

#[global] Instance result_ret : MRet result := fun _ a => Ok a.

#[global] Instance result_bind : MBind result := fun _ _ f r =>
  match r with
  | Ok a => f a
  | Raise e => Raise e
  end.

(** The parking data, as the code has it: space records by identifier, in
    insertion order. *)
Abbreviation parking_data := (list (string * gmap string pyval)).

(** ** The state-and-exception monad of the method *)

Definition M (A : Type) : Type := parking_data -> result A * parking_data.

#[global] Instance M_ret : MRet M := fun _ a st => (Ok a, st).

#[global] Instance M_bind : MBind M := fun _ _ f m st =>
  match m st with
  | (Ok a, st') => f a st'
  | (Raise e, st') => (Raise e, st')
  end.

(** [self.parking_data.items()] *)
Definition read_items : M parking_data := fun st => (Ok st, st).

(** An expression that touches no state. *)
Definition lift {A : Type} (r : result A) : M A := fun st => (r, st).

(** [self.parking_data[space_id][key] = v] for a [space_id] taken from the
    iteration over the parking data (the key exists, so nothing is raised). *)
Definition setitem (space_id key : string) (v : pyval) : M unit := fun st =>
  (Ok tt,
   map (fun p : string * gmap string pyval =>
          if String.eqb p.1 space_id then (p.1, <[key := v]> p.2) else p) st).

(** ** Python primitives used by the method *)

(** [bool(v)] *)
Definition truthy (v : pyval) : bool :=
  match v with
  | VNone => false
  | VBool b => b
  | VInt z => negb (z =? 0)%Z
  | VFloat q => negb (Qeq_bool q 0)
  | VStr s => negb (String.eqb s "")
  | VList l => match l with [] => false | _ :: _ => true end
  end.

(** [d.get(key, dflt)] *)
Definition dict_get (d : gmap string pyval) (key : string) (dflt : pyval) : pyval :=
  default dflt (d !! key).

(** [d[key]] *)
Definition dict_getitem (d : gmap string pyval) (key : string) : result pyval :=
  match d !! key with
  | Some v => Ok v
  | None => Raise (KeyError key)
  end.

(** The number of code points of a [str], which is held as its UTF-8
    bytes: every byte but the continuation bytes [0x80..0xBF] starts one. *)
Fixpoint code_points (s : string) : nat :=
  match s with
  | EmptyString => 0
  | String c rest =>
      let b := Ascii.nat_of_ascii c in
      if Nat.leb 128 b && Nat.leb b 191 then code_points rest
      else S (code_points rest)
  end.

(** [len(v)] *)
Definition py_len (v : pyval) : result Z :=
  match v with
  | VStr s => Ok (Z.of_nat (code_points s))
  | VList l => Ok (Z.of_nat (length l))
  | _ => Raise TypeError
  end.

(** The numeric value of an operand of [/]; [bool] is a subtype of [int]. *)
Definition as_number (v : pyval) : result Q :=
  match v with
  | VBool b => Ok (if b then 1 else 0)%Q
  | VInt z => Ok (inject_Z z)
  | VFloat q => Ok q
  | _ => Raise TypeError
  end.

(** The least magnitude that no longer rounds to a binary64 number: the
    greatest float plus half a unit in its last place. *)
Definition float_overflow_bound : Q := inject_Z (2 ^ 1024 - 2 ^ 970).

(** The quotient of two ints is too large for a float. *)
Definition overflows (q : Q) : bool := Qle_bool float_overflow_bound (Qabs q).

(** The operand of [/] is an int ([bool] included), not a float. *)
Definition is_int (v : pyval) : bool :=
  match v with
  | VBool _ | VInt _ => true
  | _ => false
  end.

(** [a / b] on two ints. *)
Definition int_truediv (a b : Z) : result Q :=
  if (b =? 0)%Z then Raise ZeroDivisionError
  else if overflows (inject_Z a / inject_Z b) then Raise OverflowError
  else Ok (inject_Z a / inject_Z b)%Q.

(** [v / 1000] for a number [v] of value [dist]: only the quotient of two
    ints can be refused as too large. *)
Definition by_thousand (v : pyval) (dist : Q) : result Q :=
  if is_int v && overflows (dist / 1000) then Raise OverflowError
  else Ok (dist / 1000)%Q.

(** [a / b] on numbers. *)
Definition truediv (a b : Q) : result Q :=
  if Qeq_bool b 0 then Raise ZeroDivisionError else Ok (a / b)%Q.

(** [a > b] on numbers. *)
Definition Qgtb (a b : Q) : bool := negb (Qle_bool a b).

(** ** allocate_group *)

(** The condition of the comprehension (line 629):
    [data.get('is_group', False) and not data['occupied']]. *)
Definition is_free_group (data : gmap string pyval) : result bool :=
  if truthy (dict_get data "is_group" (VBool false))
  then occ ← dict_getitem data "occupied"; mret (negb (truthy occ))
  else mret false.

(** The comprehension of lines 628-629, evaluated in iteration order. *)
Fixpoint free_groups_of (items : parking_data) : result parking_data :=
  match items with
  | [] => mret []
  | (space_id, data) :: rest =>
      keep ← is_free_group data;
      tl ← free_groups_of rest;
      mret (if keep : bool then (space_id, data) :: tl else tl)
  end.

(** Lines 640 and 643. *)
Definition size_match (vehicle_size : Z) (data : gmap string pyval) : result Q :=
  member_count ← py_len (dict_get data "member_spaces" (VList []));
  mismatch ← int_truediv (Z.abs (member_count - vehicle_size))
                         (Z.max member_count vehicle_size);
  mret (1 - mismatch)%Q.

(** Line 646. *)
Definition distance_score (data : gmap string pyval) : result Q :=
  let v := dict_get data "distance_to_entrance" (VInt 0) in
  dist ← as_number v;
  thousandths ← by_thousand v dist;
  truediv 1 (1 + thousandths)%Q.

(** The body of the loop up to line 649: the score of one candidate. *)
Definition group_score (vehicle_size : Z) (data : gmap string pyval) : result Q :=
  sm ← size_match vehicle_size data;
  ds ← distance_score data;
  mret (sm * (7 # 10) + ds * (3 # 10))%Q.

(** The loop of lines 638-653, with its two variables as accumulators. *)
Fixpoint best_group_loop (vehicle_size : Z) (groups : parking_data)
    (best_group : option string) (best_score : Q) : result (option string * Q) :=
  match groups with
  | [] => mret (best_group, best_score)
  | (group_id, data) :: rest =>
      score ← group_score vehicle_size data;
      if Qgtb score best_score
      then best_group_loop vehicle_size rest (Some group_id) score
      else best_group_loop vehicle_size rest best_group best_score
  end.

(** The method.  [self.parking_data] is the state; [vehicle_id] is the
    first parameter of the source. *)
Definition allocate_group (vehicle_id : pyval) (vehicle_size : Z) : M (option string * Q) :=
  items ← read_items;
  free_groups ← lift (free_groups_of items);
  match free_groups with
  | [] => mret (None, 0%Q)
  | _ :: _ => lift (best_group_loop vehicle_size free_groups None 0%Q)
  end.

(** Lines 531-533 of [reset_simulation]: every space is marked free. *)
Fixpoint reset_loop (space_ids : list string) : M unit :=
  match space_ids with
  | [] => mret tt
  | space_id :: rest =>
      _ ← setitem space_id "occupied" (VBool false);
      _ ← setitem space_id "vehicle_id" VNone;
      reset_loop rest
  end.

Definition reset_parking_data : M unit :=
  items ← read_items;
  reset_loop (map fst items).

(** ** Well-formedness of records (data model) and the formula of the
    specification *)

(** The record has the mandatory [occupied] field. *)
Definition has_occupied (data : gmap string pyval) : bool :=
  match data !! "occupied" with Some _ => true | None => false end.

(** [member_spaces], when present, is a sequence. *)
Definition sized_members (data : gmap string pyval) : bool :=
  match py_len (dict_get data "member_spaces" (VList [])) with
  | Ok _ => true
  | Raise _ => false
  end.

(** [distance_to_entrance], when present, is a number that is not negative
    and, when an int, has a quotient by 1000 that fits a float. *)
Definition scorable_distance (data : gmap string pyval) : bool :=
  let v := dict_get data "distance_to_entrance" (VInt 0) in
  match as_number v with
  | Ok d => Qle_bool 0 d && negb (is_int v && overflows (d / 1000))
  | Raise _ => false
  end.

(** A record the loop scores without an exception for a vehicle size of at
    least 1: [member_spaces] absent or a sequence, [distance_to_entrance]
    absent or as above. *)
Definition scorable (data : gmap string pyval) : bool :=
  sized_members data && scorable_distance data.


(** The record is marked as a group: [is_group] is present and true. *)
Definition is_group_flag (data : gmap string pyval) : bool :=
  truthy (dict_get data "is_group" (VBool false)).

(** The truth value of [occupied], when the record has the field. *)
Definition occupied_flag (data : gmap string pyval) : option bool :=
  truthy <$> data !! "occupied".

(** A free group: [is_group = true] and [occupied = false]. *)
Definition free_group (data : gmap string pyval) : Prop :=
  is_group_flag data = true /\ occupied_flag data = Some false.

(** The record passes the filter of the comprehension. *)
Definition candidate (data : gmap string pyval) : bool :=
  match is_free_group data with
  | Ok true => true
  | _ => false
  end.

(** The free groups of a mapping, in iteration order. *)
Definition candidates (pd : parking_data) : parking_data :=
  List.filter (fun p => candidate p.2) pd.

(** The scoring formula in the words of the specification, over the
    member count, the vehicle size and the distance. *)
Definition spec_size_match (member_count vehicle_size : Z) : Q :=
  (1 - inject_Z (Z.abs (member_count - vehicle_size))
       / inject_Z (Z.max member_count vehicle_size))%Q.

Definition spec_distance_score (distance_to_entrance : Q) : Q :=
  (1 / (1 + distance_to_entrance / 1000))%Q.

Definition spec_score (member_count vehicle_size : Z) (distance_to_entrance : Q) : Q :=
  ((7 # 10) * spec_size_match member_count vehicle_size
   + (3 # 10) * spec_distance_score distance_to_entrance)%Q.

(** What the loop returns from the accumulators [(best_group, best_score)]:
    either nothing beat the accumulator, or the winner is the first
    candidate whose score is the greatest. *)
Definition loop_outcome (vehicle_size : Z) (groups : parking_data)
    (best_group : option string) (best_score : Q) (res : option string * Q) : Prop :=
  (res = (best_group, best_score)
   /\ forall j gj dj, groups !! j = Some (gj, dj) ->
        exists sj, group_score vehicle_size dj = Ok sj /\ (sj <= best_score)%Q)
  \/ (exists i gi di,
        groups !! i = Some (gi, di)
        /\ res.1 = Some gi
        /\ group_score vehicle_size di = Ok res.2
        /\ (best_score < res.2)%Q
        /\ forall j gj dj, groups !! j = Some (gj, dj) ->
             exists sj, group_score vehicle_size dj = Ok sj
                        /\ (sj <= res.2)%Q /\ (j < i -> (sj < res.2)%Q)).

(** ** Sample mappings *)

Definition mk_group (occupied : bool) (members : list string) (distance : Z)
  : gmap string pyval :=
  <["is_group" := VBool true]>
  (<["occupied" := VBool occupied]>
  (<["member_spaces" := VList (map VStr members)]>
  (<["distance_to_entrance" := VInt distance]> ∅))).

(** A record as [ensure_parking_data] creates it (lines 608-615), without
    the fields the method never reads. *)
Definition mk_space (occupied : bool) (section : string) (distance : Z)
  : gmap string pyval :=
  <["occupied" := VBool occupied]>
  (<["vehicle_id" := VNone]>
  (<["distance_to_entrance" := VInt distance]>
  (<["section" := VStr section]> ∅))).

Definition lot : parking_data :=
  [("S1-A1", mk_space false "A1" 120);
   ("G1", mk_group false ["S2"; "S3"] 300);
   ("G2", mk_group false ["S4"; "S5"; "S6"] 100);
   ("G3", mk_group true ["S7"; "S8"] 50)].

(** Two free groups that score the same. *)
Definition tie_lot : parking_data :=
  [("G1", mk_group false ["S1"; "S2"] 100);
   ("G2", mk_group false ["S3"; "S4"] 100)].

(** Every group is taken. *)
Definition full_lot : parking_data :=
  [("S1-A1", mk_space false "A1" 120);
   ("G1", mk_group true ["S2"; "S3"] 300)].


(** A group record without the [occupied] field. *)
Definition no_occupied : gmap string pyval :=
  <["is_group" := VBool true]> (<["member_spaces" := VList [VStr "S1"]]> ∅).

(** A free group record without [distance_to_entrance]. *)
Definition no_distance : gmap string pyval :=
  <["is_group" := VBool true]>
  (<["occupied" := VBool false]>
  (<["member_spaces" := VList [VStr "S1"; VStr "S2"]]> ∅)).

(** A record with neither [is_group] nor [occupied]. *)
Definition bare : gmap string pyval :=
  <["section" := VStr "B2"]> ∅.

(** ** The rest of the tab

    The state the other methods of the tab work on: the parking data of
    the parking manager, the dict [allocated_vehicles] (vehicle identifier
    to space identifier, in insertion order) and the counter
    [next_vehicle_id].  A method is embedded as one call run to
    completion; what it shows on the screen is reduced to the message it
    queues.  The allocation engine, the clock and the random generator are
    collaborators outside the file and are parameters. *)

Record tab_state : Type := {
  parking : parking_data;
  allocated_vehicles : list (string * string);
  next_vehicle_id : Z
}.

(** The message boxes of the allocation and removal methods.
    [ErrorMessage e] is the box of lines 464-469, whose text is built from
    [error_msg = str(e)], copied inside the handler.  [UnboundError] is
    the callback of lines 401-403 and 519-521: its f-string reads [e] when
    the callback is called, after the handler has unbound the name, so
    that calling it raises [NameError] and shows no box. *)
Inductive message : Type :=
| NoParkingData
| NoFreeSpaces
| AllocationSuccess (vehicle_id space_id : string) (score : Q)
| AllocationError (space_id : string)
| AllocationFailed
| ErrorMessage (e : exn)
| UnboundError
| NoVehicles
| VehicleRemoved (vehicle_id space_id : string).

(** [allocation_engine.allocate_parking(parking_data, vehicle_size,
    preferred_section)] under the load-balancing weight set just before the
    call; it returns a pair or raises, and only reads the data it gets. *)
Definition allocation_engine : Type :=
  Q -> parking_data -> Z -> option string -> result (option string * Q).

(** [str(n)] of an int, as an f-string prints it. *)
Definition str_of_int (n : Z) : string := NilZero.string_of_int (Z.to_int n).

(** [key in d], [d[key] = v], [d[key]] and [del d[key]] on a dict kept in
    insertion order. *)
Definition dict_in {V : Type} (key : string) (d : list (string * V)) : bool :=
  existsb (fun p => String.eqb p.1 key) d.

Fixpoint dict_set {V : Type} (key : string) (v : V) (d : list (string * V))
  : list (string * V) :=
  match d with
  | [] => [(key, v)]
  | (k, v') :: rest =>
      if String.eqb k key then (k, v) :: rest else (k, v') :: dict_set key v rest
  end.

Fixpoint dict_lookup {V : Type} (key : string) (d : list (string * V)) : option V :=
  match d with
  | [] => None
  | (k, v) :: rest => if String.eqb k key then Some v else dict_lookup key rest
  end.

Definition dict_del {V : Type} (key : string) (d : list (string * V))
  : list (string * V) :=
  List.filter (fun p => negb (String.eqb p.1 key)) d.

(** [v == False] *)
Definition py_eq_False (v : pyval) : bool :=
  match v with
  | VBool b => negb b
  | VInt z => (z =? 0)%Z
  | VFloat q => Qeq_bool q 0
  | _ => false
  end.

(** The two writes that mark a space (lines 378-379, 437-438, 507-508). *)
Definition mark_space (space_id : string) (occupied vehicle : pyval) : M unit :=
  _ ← setitem space_id "occupied" occupied;
  setitem space_id "vehicle_id" vehicle.

(** The condition of the comprehension of lines 350-351 and 412-413:
    [not data.get('occupied', True)]. *)
Definition is_free_space (data : gmap string pyval) : bool :=
  negb (truthy (dict_get data "occupied" (VBool true))).

(** Lines 431-462 and 369-400: what both allocation methods do with the
    answer of the engine. *)
Definition commit_allocation (vehicle_id : string) (answer : option string * Q)
    (st : tab_state) : message * tab_state :=
  match answer.1 with
  | Some best_space_id =>
      if truthy (VStr best_space_id) then
        if dict_in best_space_id (parking st) then
          (AllocationSuccess vehicle_id best_space_id answer.2,
           {| parking :=
                (mark_space best_space_id (VBool true) (VStr vehicle_id) (parking st)).2;
              allocated_vehicles :=
                dict_set vehicle_id best_space_id (allocated_vehicles st);
              next_vehicle_id := next_vehicle_id st + 1 |})
        else (AllocationError best_space_id, st)
      else (AllocationFailed, st)
  | None => (AllocationFailed, st)
  end.

(** [_perform_allocation] (lines 405-469). *)
Definition _perform_allocation (engine : allocation_engine) (vehicle_size : Z)
    (preferred_section : option string) (weight : Q) (st : tab_state)
  : message * tab_state :=
  let parking_data := parking st in
  match List.filter (fun p => is_free_space p.2) parking_data with
  | [] => (NoFreeSpaces, st)
  | _ :: _ =>
      let vehicle_id := "V" ++ str_of_int (next_vehicle_id st) in
      match engine weight parking_data vehicle_size preferred_section with
      | Ok answer => commit_allocation vehicle_id answer st
      | Raise e => (ErrorMessage e, st)
      end
  end.

(** [_allocate_vehicle_thread] (lines 335-403), on the values read from the
    three widgets. *)
Definition _allocate_vehicle_thread (engine : allocation_engine)
    (ui_vehicle_size : Z) (ui_preferred_section : string) (ui_weight : Q)
    (st : tab_state) : message * tab_state :=
  let parking_data := parking st in
  match parking_data with
  | [] => (NoParkingData, st)
  | _ :: _ =>
      match List.filter (fun p => is_free_space p.2) parking_data with
      | [] => (NoFreeSpaces, st)
      | _ :: _ =>
          let vehicle_id := "V" ++ str_of_int (next_vehicle_id st) in
          let vehicle_size := ui_vehicle_size in
          let preferred_section :=
            if String.eqb ui_preferred_section "Any" then None
            else Some ui_preferred_section in
          let weight := ui_weight in
          match engine weight parking_data vehicle_size preferred_section with
          | Ok answer => commit_allocation vehicle_id answer st
          | Raise _ => (UnboundError, st)
          end
      end
  end.

(** [_remove_vehicle_thread] (lines 491-521); [pick] is the index drawn by
    [random.choice] among the keys. *)
Definition _remove_vehicle_thread (pick : nat) (st : tab_state) : message * tab_state :=
  match allocated_vehicles st with
  | [] => (NoVehicles, st)
  | (k0, _) :: _ =>
      let keys := (allocated_vehicles st).*1 in
      let vehicle_id := nth (pick mod length keys) keys k0 in
      match dict_lookup vehicle_id (allocated_vehicles st) with
      | None => (UnboundError, st)
      | Some space_id =>
          (VehicleRemoved vehicle_id space_id,
           {| parking :=
                if dict_in space_id (parking st)
                then (mark_space space_id (VBool false) VNone (parking st)).2
                else parking st;
              allocated_vehicles := dict_del vehicle_id (allocated_vehicles st);
              next_vehicle_id := next_vehicle_id st |})
      end
  end.

(** Lines 189-206 of [update_visualization]: the copy of the parking data
    is shallow, so that the writes that reflect the allocated vehicles land
    in the records of the parking manager. *)
Fixpoint reflect_allocations (allocated : list (string * string)) : M unit :=
  match allocated with
  | [] => mret tt
  | (vehicle_id, space_id) :: rest =>
      items ← read_items;
      _ ← (if dict_in space_id items
           then mark_space space_id (VBool true) (VStr vehicle_id)
           else mret tt);
      reflect_allocations rest
  end.

Definition update_visualization_data (show_visualization : bool) (st : tab_state)
  : tab_state :=
  if show_visualization
  then {| parking := (reflect_allocations (allocated_vehicles st) (parking st)).2;
          allocated_vehicles := allocated_vehicles st;
          next_vehicle_id := next_vehicle_id st |}
  else st.

(** [reset_simulation] (lines 523-543); [confirm] is the answer to the
    question box.  The method ends with a redraw of the visualization. *)
Definition reset_simulation (confirm show_visualization : bool) (st : tab_state)
  : tab_state :=
  if negb confirm then st
  else update_visualization_data show_visualization
         {| parking := (reset_parking_data (parking st)).2;
            allocated_vehicles := [];
            next_vehicle_id := 1 |}.

(** Line 209: the free count of the visualization. *)
Definition free_count (pd : parking_data) : Z :=
  Z.of_nat (length (List.filter (fun p => is_free_space p.2) pd)).

(** Line 209 in its place: the count shown in the title of a redraw is
    taken after lines 203-206 have marked the allocated spaces. *)
Definition title_free_count (st : tab_state) : Z :=
  free_count (parking (update_visualization_data true st)).

(** Lines 213-218: the grid.  [np.ceil(np.sqrt(total))] is the integer
    ceiling of the square root. *)
Definition grid_cols (total : Z) : Z :=
  if (total >? 0)%Z then Z.max 4 (Z.sqrt_up total) else 4%Z.

Definition grid_rows (total : Z) : Z :=
  if (total >? 0)%Z
  then Qceiling (inject_Z total / inject_Z (grid_cols total))
  else 4%Z.

Definition space_w : Z := 100.
Definition space_h : Z := 60.
Definition margin : Z := 20.

(** Lines 223-224: the limits of the plot. *)
Definition plot_limits (total : Z) : Z * Z :=
  (grid_cols total * space_w + 2 * margin, grid_rows total * space_h + 2 * margin)%Z.

(** Lines 228-232: the lower left corner of the rectangle of the [i]-th
    space; the rectangle is [space_w - 5] wide and [space_h - 5] high. *)
Definition cell_origin (total i : Z) : Z * Z :=
  let cols := grid_cols total in
  let rows := grid_rows total in
  let row := (i / cols)%Z in
  let col := (i mod cols)%Z in
  (col * space_w + margin, (rows - row - 1) * space_h + margin)%Z.

(** The numbers [update_statistics] displays (lines 293-306).  The inner
    handler of lines 299-303 catches [ZeroDivisionError] and [TypeError]
    only; the quotient of two ints with [0 <= occupied <= total] lies
    between 0 and 1 and cannot overflow. *)
Record statistics : Type := {
  total_spaces : Z;
  free_spaces : Z;
  occupied_spaces : Z;
  occupancy_rate : Q;
  allocations : Z
}.

Definition update_statistics (st : tab_state) : statistics :=
  let parking_data := parking st in
  let total_spaces := Z.of_nat (length parking_data) in
  let free_spaces :=
    Z.of_nat (length (List.filter
                (fun p => py_eq_False (dict_get p.2 "occupied" VNone)) parking_data)) in
  let occupied_spaces := (total_spaces - free_spaces)%Z in
  let occupancy_rate :=
    if (total_spaces >? 0)%Z
    then match int_truediv occupied_spaces total_spaces with
         | Ok q => (q * 100)%Q
         | Raise _ => 0%Q
         end
    else 0%Q in
  {| total_spaces := total_spaces;
     free_spaces := free_spaces;
     occupied_spaces := occupied_spaces;
     occupancy_rate := occupancy_rate;
     allocations := Z.of_nat (length (allocated_vehicles st)) |}.

(** [ensure_parking_data] (lines 595-615).  [store] is the [parking_data]
    attribute of the parking manager, [None] while it does not exist;
    [now] is the value of [datetime.now()]. *)
Definition section_of (image_width image_height x y : Z) : string :=
  (if Qgtb (inject_Z image_width / 2) (inject_Z x) then "A" else "B")
  ++ (if Qgtb (inject_Z image_height / 2) (inject_Z y) then "1" else "2").

Definition new_space (now : pyval) (section : string) (pos : Z * Z * Z * Z)
  : gmap string pyval :=
  let '(x, y, w, h) := pos in
  <["position" := VList [VInt x; VInt y; VInt w; VInt h]]>
  (<["occupied" := VBool true]>
  (<["vehicle_id" := VNone]>
  (<["last_state_change" := now]>
  (<["distance_to_entrance" := VInt (x + y)]>
  (<["section" := VStr section]> ∅))))).

Fixpoint ensure_loop (now : pyval) (image_width image_height : Z) (i : Z)
    (posList : list (Z * Z * Z * Z)) (pd : parking_data) : parking_data :=
  match posList with
  | [] => pd
  | (x, y, w, h) :: rest =>
      let space_id := "S" ++ str_of_int (i + 1) in
      let section := section_of image_width image_height x y in
      let full_space_id := space_id ++ "-" ++ section in
      ensure_loop now image_width image_height (i + 1) rest
        (dict_set full_space_id (new_space now section (x, y, w, h)) pd)
  end.

Definition ensure_parking_data (now : pyval) (image_width image_height : Z)
    (posList : list (Z * Z * Z * Z)) (store : option parking_data)
  : option parking_data :=
  match store with
  | Some pd => Some pd
  | None => Some (ensure_loop now image_width image_height 0 posList [])
  end.

(** A record after the two writes of [mark_space]. *)
Definition marked (occupied vehicle : pyval) (data : gmap string pyval)
  : gmap string pyval :=
  <["vehicle_id" := vehicle]> (<["occupied" := occupied]> data).

(** The state [__init__] leaves (lines 35-37), over the data of the
    parking manager. *)
Definition initial_state (pd : parking_data) : tab_state :=
  {| parking := pd; allocated_vehicles := []; next_vehicle_id := 1 |}.

(** One call of a method of the tab, and the states a session can reach: a
    session is a sequence of such calls from the initial state, with
    nothing else writing the parking data in between. *)
Inductive tab_step (engine : allocation_engine) : tab_state -> tab_state -> Prop :=
| step_perform_allocation vehicle_size preferred_section weight st :
    tab_step engine st
      (_perform_allocation engine vehicle_size preferred_section weight st).2
| step_allocate_vehicle vehicle_size preferred_section weight st :
    tab_step engine st
      (_allocate_vehicle_thread engine vehicle_size preferred_section weight st).2
| step_remove_vehicle pick st :
    tab_step engine st (_remove_vehicle_thread pick st).2
| step_reset_simulation confirm show st :
    tab_step engine st (reset_simulation confirm show st)
| step_update_visualization show st :
    tab_step engine st (update_visualization_data show st).

Inductive reachable (engine : allocation_engine) (pd : parking_data)
  : tab_state -> Prop :=
| reach_initial : reachable engine pd (initial_state pd)
| reach_step st st' :
    reachable engine pd st -> tab_step engine st st' -> reachable engine pd st'.

(** The engine only proposes spaces that pass the free-space test of the
    callers. *)
Definition returns_free_spaces (engine : allocation_engine) : Prop :=
  forall weight pd vehicle_size preferred_section space_id score,
    engine weight pd vehicle_size preferred_section = Ok (Some space_id, score) ->
    exists data, In (space_id, data) pd /\ is_free_space data = true.

(** Every allocated vehicle carries an identifier made from a value the
    counter has already passed. *)
Definition ids_below_counter (st : tab_state) : Prop :=
  forall vehicle_id space_id,
    In (vehicle_id, space_id) (allocated_vehicles st) ->
    exists k, (1 <= k < next_vehicle_id st)%Z /\ vehicle_id = "V" ++ str_of_int k.

(** Every allocated vehicle stands on a space of the parking data that is
    marked occupied by that vehicle. *)
Definition booked (st : tab_state) : Prop :=
  forall vehicle_id space_id,
    In (vehicle_id, space_id) (allocated_vehicles st) ->
    dict_in space_id (parking st) = true
    /\ forall data, In (space_id, data) (parking st) ->
         data !! "occupied" = Some (VBool true)
         /\ data !! "vehicle_id" = Some (VStr vehicle_id).

(** A sample engine: the first free space, with full confidence. *)
Definition first_free : allocation_engine := fun _ pd _ _ =>
  Ok (match List.filter (fun p => is_free_space p.2) pd with
      | [] => None
      | p :: _ => Some p.1
      end, 1%Q).

(** A sample engine that ignores the data. *)
Definition always_S1 : allocation_engine := fun _ _ _ _ => Ok (Some "S1-A1", 1%Q).

(** The vehicle whose identifier the reflection of the allocations leaves
    on a space: the last allocated vehicle that stands on it. *)
Fixpoint vehicle_at (space_id : string) (allocated : list (string * string))
  : option string :=
  match allocated with
  | [] => None
  | (vehicle_id, s) :: rest =>
      match vehicle_at space_id rest with
      | Some v => Some v
      | None => if String.eqb s space_id then Some vehicle_id else None
      end
  end.

(** The records [ensure_parking_data] is meant to create: one per
    position, in order, the [i]-th (from 0) under the identifier
    [S<i+1>-<section>]. *)
Fixpoint expected_spaces (now : pyval) (image_width image_height : Z) (i : Z)
    (posList : list (Z * Z * Z * Z)) : parking_data :=
  match posList with
  | [] => []
  | (x, y, w, h) :: rest =>
      let section := section_of image_width image_height x y in
      ("S" ++ str_of_int (i + 1) ++ "-" ++ section,
       new_space now section (x, y, w, h))
      :: expected_spaces now image_width image_height (i + 1) rest
  end.

(** A string of decimal digits. *)
Fixpoint all_digits (s : string) : bool :=
  match s with
  | EmptyString => true
  | String c rest =>
      (Nat.leb 48 (Ascii.nat_of_ascii c) && Nat.leb (Ascii.nat_of_ascii c) 57)
      && all_digits rest
  end.

(** ** Basic facts *)

Lemma Qgtb_true (a b : Q) : Qgtb a b = true <-> (b < a)%Q.
Proof.
  unfold Qgtb. rewrite negb_true_iff, <- not_true_iff_false, Qle_bool_iff.
  split; [apply Qnot_le_lt | apply Qlt_not_le].
Qed.

Lemma Qgtb_false (a b : Q) : Qgtb a b = false <-> (a <= b)%Q.
Proof. unfold Qgtb. now rewrite negb_false_iff, Qle_bool_iff. Qed.

Lemma result_bind_Ok {A B : Type} (r : result A) (f : A -> result B) (b : B) :
  r ≫= f = Ok b <-> exists a, r = Ok a /\ f a = Ok b.
Proof.
  destruct r as [a|e]; simpl; split.
  - eauto.
  - now intros (a' & [= <-] & H).
  - discriminate.
  - now intros (a' & [=] & _).
Qed.

Lemma result_bind_Raise {A B : Type} (r : result A) (f : A -> result B) (e : exn) :
  r ≫= f = Raise e <-> r = Raise e \/ exists a, r = Ok a /\ f a = Raise e.
Proof.
  destruct r as [a|e']; simpl; split.
  - eauto.
  - intros [[=] | (a' & [= <-] & H)]; assumption.
  - intros [= <-]; now left.
  - intros [[= <-] | (a' & [=] & _)]; reflexivity.
Qed.

(** ** The filter *)

Lemma is_free_group_Raise (data : gmap string pyval) (e : exn) :
  is_free_group data = Raise e <->
  truthy (dict_get data "is_group" (VBool false)) = true
  /\ data !! "occupied" = None /\ e = KeyError "occupied".
Proof.
  unfold is_free_group, dict_getitem.
  destruct (truthy (dict_get data "is_group" (VBool false))); simpl.
  - destruct (data !! "occupied") as [occ|]; simpl; split.
    + discriminate.
    + now intros (_ & [=] & _).
    + now intros [= <-].
    + now intros (_ & _ & ->).
  - split; [discriminate | now intros ([=] & _)].
Qed.

Lemma is_free_group_no_flag (data : gmap string pyval) :
  data !! "is_group" = None -> is_free_group data = Ok false.
Proof. intros H. unfold is_free_group, dict_get. now rewrite H. Qed.

Lemma is_free_group_total (data : gmap string pyval) :
  has_occupied data = true -> exists b, is_free_group data = Ok b.
Proof.
  unfold has_occupied, is_free_group, dict_getitem.
  destruct (data !! "occupied") as [occ|]; [intros _ | discriminate].
  destruct (truthy _); simpl; eauto.
Qed.

Lemma free_groups_of_Ok (pd fg : parking_data) :
  free_groups_of pd = Ok fg -> fg = candidates pd.
Proof.
  revert fg. induction pd as [|[space_id data] rest IH]; intros fg; simpl.
  - now intros [= <-].
  - intros H. apply result_bind_Ok in H as (keep & Hk & H).
    apply result_bind_Ok in H as (tl & Ht & [= <-]).
    unfold candidates, candidate in *. simpl. rewrite Hk.
    rewrite (IH tl Ht). now destruct keep.
Qed.

Lemma free_groups_of_Raise (pd : parking_data) (e : exn) :
  free_groups_of pd = Raise e -> e = KeyError "occupied".
Proof.
  induction pd as [|[space_id data] rest IH]; simpl.
  - discriminate.
  - intros H. apply result_bind_Raise in H as [H | (keep & _ & H)].
    + now apply is_free_group_Raise in H.
    + apply result_bind_Raise in H as [H | (tl & _ & [=])]. now apply IH.
Qed.

Lemma free_groups_of_total (pd : parking_data) :
  Forall (fun p => exists b, is_free_group p.2 = Ok b) pd ->
  free_groups_of pd = Ok (candidates pd).
Proof.
  induction 1 as [|[space_id data] rest [b Hb] _ IH]; simpl in *.
  - reflexivity.
  - rewrite Hb, IH. simpl. unfold candidates, candidate. simpl. rewrite Hb.
    now destruct b.
Qed.

Lemma free_groups_of_KeyError (pd : parking_data) :
  Exists (fun p => truthy (dict_get p.2 "is_group" (VBool false)) = true
                   /\ p.2 !! "occupied" = None) pd ->
  free_groups_of pd = Raise (KeyError "occupied").
Proof.
  induction 1 as [[space_id data] rest [Hg Ho] | [space_id data] rest _ IH]; simpl in *.
  - assert (H : is_free_group data = Raise (KeyError "occupied"))
      by now apply is_free_group_Raise.
    now rewrite H.
  - rewrite IH. destruct (is_free_group data) as [keep|e] eqn:E; simpl.
    + reflexivity.
    + apply is_free_group_Raise in E as (_ & _ & ->). reflexivity.
Qed.

Lemma candidates_In (pd : parking_data) (p : string * gmap string pyval) :
  In p (candidates pd) <-> In p pd /\ candidate p.2 = true.
Proof. unfold candidates. apply filter_In. Qed.

(** ** The method as a function of the filter and of the loop *)

Lemma allocate_group_unfold (vehicle_id : pyval) (vehicle_size : Z) (pd : parking_data) :
  (allocate_group vehicle_id vehicle_size pd).1 =
  fg ← free_groups_of pd;
  match fg with
  | [] => Ok (None, 0%Q)
  | _ :: _ => best_group_loop vehicle_size fg None 0%Q
  end.
Proof.
  unfold allocate_group, read_items, lift, mbind, M_bind, mret, M_ret. simpl.
  destruct (free_groups_of pd) as [[|p fg]|e]; reflexivity.
Qed.

Lemma best_group_loop_nil_eq (vehicle_size : Z) (fg : parking_data) :
  match fg with
  | [] => Ok (None, 0%Q)
  | _ :: _ => best_group_loop vehicle_size fg None 0%Q
  end = best_group_loop vehicle_size fg None 0%Q.
Proof. now destruct fg. Qed.

Lemma allocate_group_Ok (vehicle_id : pyval) (vehicle_size : Z) (pd : parking_data)
    (res : option string * Q) :
  (allocate_group vehicle_id vehicle_size pd).1 = Ok res <->
  free_groups_of pd = Ok (candidates pd)
  /\ best_group_loop vehicle_size (candidates pd) None 0%Q = Ok res.
Proof.
  rewrite allocate_group_unfold. split.
  - intros H. apply result_bind_Ok in H as (fg & Hfg & H).
    rewrite best_group_loop_nil_eq in H.
    pose proof (free_groups_of_Ok _ _ Hfg) as ->. now split.
  - intros [-> H]. simpl. now rewrite best_group_loop_nil_eq.
Qed.

(** ** The loop *)

Lemma best_group_loop_outcome (vehicle_size : Z) (groups : parking_data) :
  forall best_group best_score res,
    best_group_loop vehicle_size groups best_group best_score = Ok res ->
    loop_outcome vehicle_size groups best_group best_score res.
Proof.
  induction groups as [|[group_id data] rest IH]; intros bg bs res; simpl.
  - intros [= <-]. left. split; [reflexivity|]. intros j gj dj Hj. discriminate Hj.
  - intros H. apply result_bind_Ok in H as (score & Hscore & H).
    destruct (Qgtb score bs) eqn:Hcmp.
    + apply Qgtb_true in Hcmp.
      apply IH in H as [[-> Hall] | (i & gi & di & Hi & Hg & Hs & Hlt & Hall)].
      * right. exists 0, group_id, data. simpl. repeat split; try assumption; try reflexivity.
        intros [|j] gj dj Hj; simpl in Hj.
        -- injection Hj as <- <-. exists score. repeat split; [assumption | apply Qle_refl | lia].
        -- destruct (Hall j gj dj Hj) as (sj & Hsj & Hle).
           exists sj. repeat split; [assumption | assumption | lia].
      * right. exists (S i), gi, di. simpl. repeat split; try assumption.
        -- now apply Qlt_trans with score.
        -- intros [|j] gj dj Hj; simpl in Hj.
           ++ injection Hj as <- <-. exists score.
              repeat split; [assumption | now apply Qlt_le_weak | now intros _].
           ++ destruct (Hall j gj dj Hj) as (sj & Hsj & Hle & Hbefore).
              exists sj. repeat split; [assumption | assumption |].
              intros Hji. apply Hbefore. lia.
    + apply Qgtb_false in Hcmp.
      apply IH in H as [[-> Hall] | (i & gi & di & Hi & Hg & Hs & Hlt & Hall)].
      * left. split; [reflexivity|].
        intros [|j] gj dj Hj; simpl in Hj.
        -- injection Hj as <- <-. now exists score.
        -- now apply (Hall j gj dj).
      * right. exists (S i), gi, di. simpl. repeat split; try assumption.
        intros [|j] gj dj Hj; simpl in Hj.
        -- injection Hj as <- <-. exists score.
           assert (score < res.2)%Q by now apply Qle_lt_trans with bs.
           repeat split; [assumption | now apply Qlt_le_weak | now intros _].
        -- destruct (Hall j gj dj Hj) as (sj & Hsj & Hle & Hbefore).
           exists sj. repeat split; [assumption | assumption |].
           intros Hji. apply Hbefore. lia.
Qed.

Lemma best_group_loop_total (vehicle_size : Z) (groups : parking_data) :
  Forall (fun p => exists q, group_score vehicle_size p.2 = Ok q) groups ->
  forall best_group best_score,
    exists res, best_group_loop vehicle_size groups best_group best_score = Ok res.
Proof.
  induction 1 as [|[group_id data] rest [q Hq] _ IH]; intros bg bs; simpl in *.
  - eauto.
  - rewrite Hq. simpl. destruct (Qgtb q bs); apply IH.
Qed.

Lemma best_group_loop_scores (vehicle_size : Z) (groups : parking_data)
    (best_group : option string) (best_score : Q) (res : option string * Q) :
  best_group_loop vehicle_size groups best_group best_score = Ok res ->
  forall p, In p groups -> exists q, group_score vehicle_size p.2 = Ok q.
Proof.
  intros H [g d] Hin. apply best_group_loop_outcome in H.
  apply list_elem_of_In, list_elem_of_lookup in Hin as [j Hj].
  destruct H as [[_ Hall] | (i & gi & di & _ & _ & _ & _ & Hall)];
    destruct (Hall j g d Hj) as (sj & Hsj & _); eauto.
Qed.


(** ** The score of one candidate *)

Lemma div_1000 (d : Q) : (d / 1000 == d * (1 # 1000))%Q.
Proof. reflexivity. Qed.

Lemma inject_Z_nonneg (a : Z) : (0 <= a)%Z -> (0 <= inject_Z a)%Q.
Proof. intros H. change 0%Q with (inject_Z 0). now rewrite <- Zle_Qle. Qed.

Lemma inject_Z_pos (a : Z) : (0 < a)%Z -> (0 < inject_Z a)%Q.
Proof. intros H. change 0%Q with (inject_Z 0). now rewrite <- Zlt_Qlt. Qed.

Lemma py_len_nonneg (v : pyval) (n : Z) : py_len v = Ok n -> (0 <= n)%Z.
Proof. destruct v; simpl; intros [= <-]; lia. Qed.

Lemma float_overflow_bound_above_one : (1 < float_overflow_bound)%Q.
Proof. vm_compute. reflexivity. Qed.

Lemma overflows_false (q : Q) :
  overflows q = false <-> (Qabs q < float_overflow_bound)%Q.
Proof.
  unfold overflows. rewrite <- not_true_iff_false, Qle_bool_iff.
  split; [apply Qnot_le_lt | apply Qlt_not_le].
Qed.

Lemma overflows_unit (q : Q) : (0 <= q)%Q -> (q <= 1)%Q -> overflows q = false.
Proof.
  intros H0 H1. apply overflows_false. rewrite Qabs_pos by assumption.
  pose proof float_overflow_bound_above_one. lra.
Qed.

Lemma int_truediv_Ok (a b : Z) (q : Q) :
  int_truediv a b = Ok q <->
  b <> 0%Z /\ overflows (inject_Z a / inject_Z b) = false
  /\ q = (inject_Z a / inject_Z b)%Q.
Proof.
  unfold int_truediv. destruct (Z.eqb_spec b 0) as [->|Hb].
  - split; [discriminate | now intros [[] _]].
  - destruct (overflows (inject_Z a / inject_Z b)); split.
    + discriminate.
    + now intros (_ & [=] & _).
    + now intros [= <-].
    + now intros (_ & _ & ->).
Qed.

Lemma by_thousand_Ok (v : pyval) (d x : Q) :
  by_thousand v d = Ok x <->
  is_int v && overflows (d / 1000) = false /\ x = (d / 1000)%Q.
Proof.
  unfold by_thousand. destruct (is_int v && overflows (d / 1000)); split.
  - discriminate.
  - now intros [[=] _].
  - now intros [= <-].
  - now intros [_ ->].
Qed.

Lemma truediv_Ok (a b q : Q) :
  truediv a b = Ok q <-> ~ (b == 0)%Q /\ q = (a / b)%Q.
Proof.
  unfold truediv. destruct (Qeq_bool b 0) eqn:E; split.
  - discriminate.
  - apply Qeq_bool_eq in E. now intros [[] _].
  - apply Qeq_bool_neq in E. now intros [= <-].
  - now intros [_ ->].
Qed.

Lemma size_match_Ok (vehicle_size : Z) (data : gmap string pyval) (sm : Q) :
  size_match vehicle_size data = Ok sm ->
  exists member_count,
    py_len (dict_get data "member_spaces" (VList [])) = Ok member_count
    /\ Z.max member_count vehicle_size <> 0%Z
    /\ sm = spec_size_match member_count vehicle_size.
Proof.
  unfold size_match. rewrite result_bind_Ok.
  intros (mc & Hmc & H). apply result_bind_Ok in H as (mm & Hmm & [= <-]).
  apply int_truediv_Ok in Hmm as (Hmax & _ & ->). now exists mc.
Qed.

Lemma size_match_intro (vehicle_size : Z) (data : gmap string pyval) (mc : Z) :
  py_len (dict_get data "member_spaces" (VList [])) = Ok mc ->
  Z.max mc vehicle_size <> 0%Z ->
  overflows (inject_Z (Z.abs (mc - vehicle_size)) / inject_Z (Z.max mc vehicle_size))
  = false ->
  size_match vehicle_size data = Ok (spec_size_match mc vehicle_size).
Proof.
  intros Hmc Hmax Hov. unfold size_match. apply result_bind_Ok.
  exists mc. split; [assumption|].
  apply result_bind_Ok. eexists. split; [|reflexivity].
  now apply int_truediv_Ok.
Qed.

Lemma distance_score_Ok (data : gmap string pyval) (ds : Q) :
  distance_score data = Ok ds ->
  exists d,
    as_number (dict_get data "distance_to_entrance" (VInt 0)) = Ok d
    /\ ~ (1 + d / 1000 == 0)%Q
    /\ ds = spec_distance_score d.
Proof.
  unfold distance_score. cbv zeta. rewrite result_bind_Ok.
  intros (d & Hd & H). apply result_bind_Ok in H as (x & Hx & H).
  apply by_thousand_Ok in Hx as [_ ->].
  apply truediv_Ok in H as [Hnz ->]. now exists d.
Qed.

Lemma distance_score_intro (data : gmap string pyval) (d : Q) :
  as_number (dict_get data "distance_to_entrance" (VInt 0)) = Ok d ->
  is_int (dict_get data "distance_to_entrance" (VInt 0)) && overflows (d / 1000)
  = false ->
  ~ (1 + d / 1000 == 0)%Q ->
  distance_score data = Ok (spec_distance_score d).
Proof.
  intros Hd Hov Hnz. unfold distance_score. cbv zeta. apply result_bind_Ok.
  exists d. split; [assumption|]. apply result_bind_Ok.
  exists (d / 1000)%Q. split; [now apply by_thousand_Ok|].
  now apply truediv_Ok.
Qed.

Lemma group_score_Ok (vehicle_size : Z) (data : gmap string pyval) (s : Q) :
  group_score vehicle_size data = Ok s <->
  exists sm ds,
    size_match vehicle_size data = Ok sm
    /\ distance_score data = Ok ds
    /\ s = (sm * (7 # 10) + ds * (3 # 10))%Q.
Proof.
  unfold group_score. rewrite result_bind_Ok. split.
  - intros (sm & Hsm & H). apply result_bind_Ok in H as (ds & Hds & [= <-]).
    now exists sm, ds.
  - intros (sm & ds & Hsm & Hds & ->). exists sm. split; [assumption|].
    apply result_bind_Ok. now exists ds.
Qed.

Lemma spec_size_match_le_1 (member_count vehicle_size : Z) :
  (0 <= member_count)%Z -> Z.max member_count vehicle_size <> 0%Z ->
  (spec_size_match member_count vehicle_size <= 1)%Q.
Proof.
  intros Hmc Hmax. unfold spec_size_match.
  assert (0 < inject_Z (Z.max member_count vehicle_size))%Q
    by (apply inject_Z_pos; lia).
  assert (0 <= inject_Z (Z.abs (member_count - vehicle_size))
               / inject_Z (Z.max member_count vehicle_size))%Q.
  { apply Qle_shift_div_l; [assumption|].
    pose proof (inject_Z_nonneg (Z.abs (member_count - vehicle_size)) (Z.abs_nonneg _)).
    lra. }
  lra.
Qed.

Lemma spec_size_match_ge_0 (member_count vehicle_size : Z) :
  (0 <= member_count)%Z -> (1 <= vehicle_size)%Z ->
  (0 <= spec_size_match member_count vehicle_size)%Q.
Proof.
  intros Hmc Hvs. unfold spec_size_match.
  assert (0 < inject_Z (Z.max member_count vehicle_size))%Q
    by (apply inject_Z_pos; lia).
  assert (inject_Z (Z.abs (member_count - vehicle_size))
          / inject_Z (Z.max member_count vehicle_size) <= 1)%Q.
  { apply Qle_shift_div_r; [assumption|].
    assert (inject_Z (Z.abs (member_count - vehicle_size))
            <= inject_Z (Z.max member_count vehicle_size))%Q
      by (rewrite <- Zle_Qle; lia).
    lra. }
  lra.
Qed.

Lemma spec_distance_score_pos (d : Q) :
  (0 <= d)%Q -> (0 < spec_distance_score d)%Q.
Proof.
  intros Hd. unfold spec_distance_score.
  apply Qlt_shift_div_l; rewrite div_1000; lra.
Qed.

Lemma spec_distance_score_le_1 (d : Q) :
  (0 <= d)%Q -> (spec_distance_score d <= 1)%Q.
Proof.
  intros Hd. unfold spec_distance_score.
  apply Qle_shift_div_r; rewrite div_1000; lra.
Qed.

Lemma spec_distance_score_lt_1 (d : Q) :
  (0 < d)%Q -> (spec_distance_score d < 1)%Q.
Proof.
  intros Hd. unfold spec_distance_score.
  apply Qlt_shift_div_r; rewrite div_1000; lra.
Qed.


Lemma scorable_distance_Ok (data : gmap string pyval) :
  scorable_distance data = true <->
  exists d, as_number (dict_get data "distance_to_entrance" (VInt 0)) = Ok d
            /\ (0 <= d)%Q
            /\ is_int (dict_get data "distance_to_entrance" (VInt 0))
               && overflows (d / 1000) = false.
Proof.
  unfold scorable_distance. cbv zeta.
  destruct (as_number _) as [d|e]; split.
  - intros H. apply andb_prop in H as [H0 Hov]. exists d.
    split; [reflexivity|]. split; [now apply Qle_bool_iff | now apply negb_true_iff].
  - intros (d' & [= <-] & H0 & Hov). apply andb_true_intro.
    split; [now apply Qle_bool_iff | now apply negb_true_iff].
  - discriminate.
  - now intros (d' & [=] & _).
Qed.

(** On a scorable record and a vehicle size of at least one the score is
    computed, is positive and is at most one. *)
Lemma group_score_scorable (vehicle_size : Z) (data : gmap string pyval) :
  (1 <= vehicle_size)%Z -> scorable data = true ->
  exists s, group_score vehicle_size data = Ok s /\ (0 < s)%Q /\ (s <= 1)%Q.
Proof.
  intros Hvs Hwf. unfold scorable in Hwf.
  apply andb_prop in Hwf as [Hlen Hdist].
  unfold sized_members in Hlen.
  destruct (py_len (dict_get data "member_spaces" (VList []))) as [mc|] eqn:Hmc;
    [|discriminate].
  apply scorable_distance_Ok in Hdist as (d & Hd & Hd0 & Hov).
  pose proof (py_len_nonneg _ _ Hmc) as Hmc0.
  pose proof (spec_size_match_ge_0 mc vehicle_size Hmc0 Hvs) as Hsm0.
  pose proof (spec_size_match_le_1 mc vehicle_size Hmc0 ltac:(lia)) as Hsm1.
  exists (spec_size_match mc vehicle_size * (7 # 10) + spec_distance_score d * (3 # 10))%Q.
  split.
  - apply group_score_Ok. do 2 eexists. split; [|split; [|reflexivity]].
    + apply size_match_intro; [assumption | lia |].
      unfold spec_size_match in Hsm0, Hsm1. apply overflows_unit; lra.
    + apply distance_score_intro; [assumption | assumption |].
      rewrite div_1000. lra.
  - pose proof (spec_distance_score_pos d Hd0).
    pose proof (spec_distance_score_le_1 d Hd0).
    split; lra.
Qed.


(** ** Free groups and the filter *)

Lemma candidate_free_group (data : gmap string pyval) :
  candidate data = true <-> free_group data.
Proof.
  unfold candidate, free_group, is_free_group, is_group_flag, occupied_flag, dict_getitem.
  destruct (truthy (dict_get data "is_group" (VBool false))); simpl.
  - destruct (data !! "occupied") as [occ|]; simpl.
    + destruct (truthy occ); simpl; split; try discriminate; try tauto.
      now intros [_ [=]].
    + split; [discriminate | now intros [_ [=]]].
  - split; [discriminate | now intros [[=] _]].
Qed.

Lemma candidate_fields (data : gmap string pyval) :
  data !! "is_group" = Some (VBool true) ->
  data !! "occupied" = Some (VBool false) ->
  candidate data = true.
Proof.
  intros Hg Ho. apply candidate_free_group.
  unfold free_group, is_group_flag, occupied_flag, dict_get. now rewrite Hg, Ho.
Qed.

Lemma candidates_nil (pd : parking_data) :
  Forall (fun p => ~ free_group p.2) pd -> candidates pd = [].
Proof.
  induction 1 as [|[space_id data] rest Hnot _ IH]; [reflexivity|].
  unfold candidates in *. simpl in *.
  destruct (candidate data) eqn:E; [|assumption].
  now apply candidate_free_group in E.
Qed.

Lemma free_groups_of_skip (pd1 pd2 : parking_data) (space_id : string)
    (data : gmap string pyval) :
  data !! "is_group" = None ->
  free_groups_of (pd1 ++ (space_id, data) :: pd2)%list = free_groups_of (pd1 ++ pd2)%list.
Proof.
  intros H. induction pd1 as [|[k d] rest IH]; simpl.
  - rewrite (is_free_group_no_flag data H). simpl.
    now destruct (free_groups_of pd2).
  - now rewrite IH.
Qed.

Lemma lookup_unique_key (pd : parking_data) (k : string) (d1 d2 : gmap string pyval) :
  NoDup pd.*1 -> In (k, d1) pd -> In (k, d2) pd -> d1 = d2.
Proof.
  induction pd as [|[k' d'] rest IH]; simpl; [now intros _ []|].
  intros Hnd H1 H2. apply NoDup_cons in Hnd as [Hk Hnd].
  assert (Hin : forall d, In (k, d) rest -> k ∈ rest.*1).
  { intros d Hd. apply list_elem_of_fmap. exists (k, d).
    split; [reflexivity | now apply list_elem_of_In]. }
  destruct H1 as [E1 | H1], H2 as [E2 | H2]; simplify_eq; simpl in *.
  - reflexivity.
  - exfalso. eauto.
  - exfalso. eauto.
  - now apply IH.
Qed.

(** ** The method on mappings it can read and score *)

Lemma free_groups_of_occupied (pd : parking_data) :
  Forall (fun p => is_group_flag p.2 = true -> has_occupied p.2 = true) pd ->
  free_groups_of pd = Ok (candidates pd).
Proof.
  intros Hocc. apply free_groups_of_total.
  eapply Forall_impl; [exact Hocc|]. intros [space_id data] H. simpl in *.
  unfold is_group_flag in H. unfold is_free_group.
  destruct (truthy (dict_get data "is_group" (VBool false))); [|now exists false].
  specialize (H eq_refl). unfold has_occupied in H. unfold dict_getitem.
  destruct (data !! "occupied") as [occ|]; [simpl; eauto | discriminate].
Qed.

Lemma candidates_scorable (vehicle_size : Z) (pd : parking_data) :
  (1 <= vehicle_size)%Z ->
  Forall (fun p => free_group p.2 -> scorable p.2 = true) pd ->
  forall g d, In (g, d) (candidates pd) ->
    exists s, group_score vehicle_size d = Ok s /\ (0 < s)%Q.
Proof.
  intros Hvs Hsc g d Hin. apply candidates_In in Hin as [Hin Hc]. simpl in Hc.
  rewrite Forall_forall in Hsc.
  specialize (Hsc (g, d) (proj2 (list_elem_of_In _ _) Hin)
                (proj1 (candidate_free_group d) Hc)).
  destruct (group_score_scorable vehicle_size d Hvs Hsc) as (s & Hs & Hpos & _).
  eauto.
Qed.

Lemma allocate_group_scorable
    (vehicle_id : pyval) (vehicle_size : Z) (pd : parking_data) :
  (1 <= vehicle_size)%Z ->
  Forall (fun p => is_group_flag p.2 = true -> has_occupied p.2 = true) pd ->
  Forall (fun p => free_group p.2 -> scorable p.2 = true) pd ->
  exists res,
    (allocate_group vehicle_id vehicle_size pd).1 = Ok res
    /\ ((candidates pd = [] /\ res = (None, 0%Q))
        \/ (candidates pd <> []
            /\ exists g data,
                 res.1 = Some g /\ In (g, data) pd /\ free_group data
                 /\ group_score vehicle_size data = Ok res.2 /\ (0 < res.2)%Q)).
Proof.
  intros Hvs Hocc Hsc.
  pose proof (candidates_scorable vehicle_size pd Hvs Hsc) as Hscores.
  destruct (best_group_loop_total vehicle_size (candidates pd)) with
    (best_group := @None string) (best_score := 0%Q) as [res Hloop].
  { apply Forall_forall. intros [g d] Hin. apply list_elem_of_In in Hin.
    destruct (Hscores g d Hin) as (s & Hs & _). eauto. }
  exists res. split.
  { apply allocate_group_Ok. split; [now apply free_groups_of_occupied | assumption]. }
  destruct (candidates pd) as [|[g0 d0] rest] eqn:Hc.
  - left. split; [reflexivity|]. simpl in Hloop. now injection Hloop.
  - right. split; [discriminate|].
    destruct (Hscores g0 d0) as (s0 & Hs0 & Hpos); [now left|].
    apply best_group_loop_outcome in Hloop
      as [[_ Hall] | (i & gi & di & Hi & Hgi & Hsi & Hlt & _)].
    + destruct (Hall 0 g0 d0 eq_refl) as (s0' & Hs0' & Hle).
      rewrite Hs0 in Hs0'. injection Hs0' as <-. lra.
    + exists gi, di.
      assert (Hin : In (gi, di) (candidates pd))
        by (rewrite Hc; apply list_elem_of_In, list_elem_of_lookup; eauto).
      apply candidates_In in Hin as [Hin Hcand].
      split; [assumption|]. split; [assumption|].
      split; [now apply candidate_free_group|]. now split.
Qed.

(** ** Effects on the parking data *)

(** The store does have a writer: resetting the simulation frees the
    taken group of [full_lot]. *)
Example reset_parking_data_writes :
  (reset_parking_data full_lot).2 <> full_lot
  /\ (allocate_group VNone 2 full_lot).1 = Ok (None, 0%Q)
  /\ exists s, (allocate_group VNone 2 (reset_parking_data full_lot).2).1
               = Ok (Some "G1", s).
Proof.
  split; [|split].
  - intros H.
    apply (f_equal (fun st => occupied_flag <$> (list_to_map st : gmap string _) !! "G1")) in H.
    vm_compute in H. discriminate H.
  - vm_compute. reflexivity.
  - eexists. vm_compute. reflexivity.
Qed.

(** C7. [allocate_group] never writes the parking data: whatever it returns
    or raises, the data after the call is the data before it. *)
Theorem allocate_group_leaves_parking_data
    (vehicle_id : pyval) (vehicle_size : Z) (pd : parking_data) :
  (allocate_group vehicle_id vehicle_size pd).2 = pd.
Proof.
  unfold allocate_group, read_items, lift, mbind, M_bind, mret, M_ret. simpl.
  destruct (free_groups_of pd) as [[|p fg]|e]; reflexivity.
Qed.

(** C9. The [vehicle_id] argument has no influence: two calls that differ
    only in it return the same result (and leave the same data). *)
Theorem allocate_group_ignores_vehicle_id
    (vehicle_id1 vehicle_id2 : pyval) (vehicle_size : Z) (pd : parking_data) :
  allocate_group vehicle_id1 vehicle_size pd = allocate_group vehicle_id2 vehicle_size pd.
Proof. reflexivity. Qed.

(** ** No free group *)

(** C3, as the code has it.  On a mapping with no free group (no record
    has [is_group] true together with [occupied] false), whose records
    marked [is_group] all carry the [occupied] field, the method returns
    [(None, 0)].  A mapping without any record marked [is_group] is the
    special case in which the first hypothesis holds vacuously. *)
Theorem allocate_group_no_free_group
    (vehicle_id : pyval) (vehicle_size : Z) (pd : parking_data) :
  Forall (fun p => is_group_flag p.2 = true -> has_occupied p.2 = true) pd ->
  Forall (fun p => ~ free_group p.2) pd ->
  (allocate_group vehicle_id vehicle_size pd).1 = Ok (None, 0%Q).
Proof.
  intros Hocc Hfree. apply allocate_group_Ok.
  rewrite (candidates_nil pd Hfree). split; [|reflexivity].
  rewrite <- (candidates_nil pd Hfree). apply free_groups_of_total.
  eapply Forall_impl; [exact Hocc|]. intros [space_id data] H. simpl in *.
  unfold is_group_flag in H. unfold is_free_group.
  destruct (truthy (dict_get data "is_group" (VBool false))); [|now exists false].
  specialize (H eq_refl). unfold has_occupied in H. unfold dict_getitem.
  destruct (data !! "occupied") as [occ|]; [simpl; eauto | discriminate].
Qed.

Lemma allocate_group_no_free_group_witness :
  (allocate_group (VStr "V1") 2 full_lot).1 = Ok (None, 0%Q).
Proof.
  apply (allocate_group_no_free_group (VStr "V1") 2 full_lot).
  - repeat constructor; vm_compute; congruence.
  - repeat constructor; intros [Hg Ho]; vm_compute in Hg, Ho; congruence.
Defined.

(** C3 fails as stated: a mapping whose only record is marked [is_group]
    and has no [occupied] key holds no free group, and the method raises
    [KeyError('occupied')] instead of returning [(None, 0)]. *)
Lemma allocate_group_no_free_group_raises :
  Forall (fun p : string * gmap string pyval => ~ free_group p.2) [("G4", no_occupied)]
  /\ (allocate_group (VStr "V1") 2 [("G4", no_occupied)]).1
     = Raise (KeyError "occupied")
  /\ (allocate_group (VStr "V1") 2 [("G4", no_occupied)]).1 <> Ok (None, 0%Q).
Proof.
  split; [|split].
  - repeat constructor. intros [_ Ho]. vm_compute in Ho. discriminate.
  - vm_compute. reflexivity.
  - vm_compute. discriminate.
Qed.

(** C8. A record marked [is_group] that has no [occupied] key makes the
    method raise [KeyError('occupied')], wherever it stands in the mapping
    and whatever the other records are; a record without an [is_group] key
    is skipped without its [occupied] key being read, so that it can be
    dropped from the mapping without changing the outcome. *)
Theorem allocate_group_missing_occupied (vehicle_id : pyval) (vehicle_size : Z) :
  (forall pd : parking_data,
     Exists (fun p => p.2 !! "is_group" = Some (VBool true)
                      /\ p.2 !! "occupied" = None) pd ->
     (allocate_group vehicle_id vehicle_size pd).1 = Raise (KeyError "occupied"))
  /\ (forall (pd1 pd2 : parking_data) space_id data,
        data !! "is_group" = None ->
        (allocate_group vehicle_id vehicle_size (pd1 ++ (space_id, data) :: pd2)%list).1
        = (allocate_group vehicle_id vehicle_size (pd1 ++ pd2)%list).1).
Proof.
  split.
  - intros pd H. rewrite allocate_group_unfold.
    rewrite free_groups_of_KeyError; [reflexivity|].
    eapply Exists_impl; [exact H|]. intros [space_id data] [Hg Ho]. simpl in *.
    split; [|assumption]. unfold dict_get. now rewrite Hg.
  - intros pd1 pd2 space_id data H. rewrite !allocate_group_unfold.
    now rewrite free_groups_of_skip.
Qed.

Lemma allocate_group_missing_occupied_witness :
  (allocate_group (VStr "V1") 2 (lot ++ [("G4", no_occupied)])%list).1
  = Raise (KeyError "occupied")
  /\ (allocate_group (VStr "V1") 2 ([("G0", mk_group false ["S0"] 10)]
                                     ++ ("S9", bare) :: tie_lot)%list).1
     = (allocate_group (VStr "V1") 2
          ([("G0", mk_group false ["S0"] 10)] ++ tie_lot)%list).1.
Proof.
  split.
  - apply (proj1 (allocate_group_missing_occupied (VStr "V1") 2)).
    apply Exists_app. right. apply Exists_cons_hd. split; reflexivity.
  - apply (proj2 (allocate_group_missing_occupied (VStr "V1") 2)). reflexivity.
Defined.


(** ** The score and the selection *)

Lemma score_matches_spec (vehicle_size : Z) (data : gmap string pyval)
    (members : list pyval) (dist : pyval) (d score : Q) :
  data !! "member_spaces" = Some (VList members) ->
  data !! "distance_to_entrance" = Some dist -> as_number dist = Ok d ->
  group_score vehicle_size data = Ok score ->
  (score == spec_score (Z.of_nat (length members)) vehicle_size d)%Q.
Proof.
  intros Hm Hd Hnum H.
  apply group_score_Ok in H as (sm & ds & Hsm & Hds & ->).
  apply size_match_Ok in Hsm as (mc & Hmc & _ & ->).
  apply distance_score_Ok in Hds as (d' & Hd' & _ & ->).
  unfold dict_get in Hmc, Hd'. rewrite Hm in Hmc. rewrite Hd in Hd'. simpl in *.
  injection Hmc as <-. rewrite Hnum in Hd'. injection Hd' as <-.
  unfold spec_score. ring.
Qed.

(** C1. Every free candidate group (a record with [is_group] true and
    [occupied] false) of a call that returns is scored by the formula of
    the specification, [0.7 * size_match + 0.3 * distance_score], over the
    length of its [member_spaces] and its [distance_to_entrance]; when the
    group is the one returned (identifiers being unique, as the keys of a
    dict are), the returned score is that score. *)
Theorem allocate_group_score_formula
    (vehicle_id : pyval) (vehicle_size : Z) (pd : parking_data)
    (res : option string * Q) (group_id : string) (data : gmap string pyval)
    (members : list pyval) (dist : pyval) (d : Q) :
  (allocate_group vehicle_id vehicle_size pd).1 = Ok res ->
  In (group_id, data) pd ->
  data !! "is_group" = Some (VBool true) ->
  data !! "occupied" = Some (VBool false) ->
  data !! "member_spaces" = Some (VList members) ->
  data !! "distance_to_entrance" = Some dist ->
  as_number dist = Ok d ->
  exists score,
    group_score vehicle_size data = Ok score
    /\ (score == spec_score (Z.of_nat (length members)) vehicle_size d)%Q
    /\ (NoDup pd.*1 -> res.1 = Some group_id -> res.2 = score).
Proof.
  intros Hres Hin Hg Ho Hm Hd Hnum.
  apply allocate_group_Ok in Hres as [_ Hloop].
  assert (Hcand : In (group_id, data) (candidates pd))
    by (apply candidates_In; split; [assumption | now apply candidate_fields]).
  destruct (best_group_loop_scores _ _ _ _ _ Hloop _ Hcand) as [score Hscore].
  simpl in Hscore. exists score. split; [assumption|]. split.
  - now apply (score_matches_spec vehicle_size data members dist).
  - intros Hnd Hwin.
    apply best_group_loop_outcome in Hloop
      as [[-> _] | (i & gi & di & Hi & Hgi & Hsi & _)]; [discriminate Hwin|].
    rewrite Hgi in Hwin. injection Hwin as ->.
    assert (Hdi : In (group_id, di) pd).
    { apply (candidates_In pd (group_id, di)), list_elem_of_In, list_elem_of_lookup. eauto. }
    rewrite (lookup_unique_key pd group_id di data Hnd Hdi Hin) in Hsi.
    rewrite Hsi in Hscore. now injection Hscore.
Qed.

Lemma allocate_group_score_formula_witness :
  exists s score,
    (allocate_group (VStr "V1") 2 lot).1 = Ok (Some "G1", s)
    /\ group_score 2 (mk_group false ["S2"; "S3"] 300) = Ok score
    /\ (score == spec_score 2 2 300)%Q
    /\ s = score.
Proof.
  assert (H : exists s, (allocate_group (VStr "V1") 2 lot).1 = Ok (Some "G1", s))
    by (eexists; vm_compute; reflexivity).
  destruct H as [s Hs]. exists s.
  destruct (allocate_group_score_formula (VStr "V1") 2 lot (Some "G1", s) "G1"
              (mk_group false ["S2"; "S3"] 300)
              [VStr "S2"; VStr "S3"] (VInt 300) 300%Q Hs)
    as (score & H1 & H2 & H3); try reflexivity.
  - simpl. tauto.
  - exists score. repeat split; try assumption.
    apply H3; [|reflexivity].
    apply (bool_decide_unpack _). vm_compute. exact I.
Defined.




(** C4. The group returned is the first candidate, in the iteration order
    of the mapping, whose score is the greatest: every candidate scores at
    most as much, every earlier candidate strictly less.  When no group is
    returned the score is 0 and no candidate scored above 0. *)
Theorem allocate_group_first_greatest
    (vehicle_id : pyval) (vehicle_size : Z) (pd : parking_data)
    (res : option string * Q) :
  (allocate_group vehicle_id vehicle_size pd).1 = Ok res ->
  match res.1 with
  | Some g =>
      exists i data,
        candidates pd !! i = Some (g, data)
        /\ group_score vehicle_size data = Ok res.2
        /\ forall j gj dj, candidates pd !! j = Some (gj, dj) ->
             exists sj, group_score vehicle_size dj = Ok sj
                        /\ (sj <= res.2)%Q /\ (j < i -> (sj < res.2)%Q)
  | None =>
      res.2 = 0%Q
      /\ forall j gj dj, candidates pd !! j = Some (gj, dj) ->
           exists sj, group_score vehicle_size dj = Ok sj /\ (sj <= 0)%Q
  end.
Proof.
  intros Hres. apply allocate_group_Ok in Hres as [_ Hloop].
  apply best_group_loop_outcome in Hloop
    as [[-> Hall] | (i & gi & di & Hi & Hgi & Hsi & _ & Hall)].
  - simpl. now split.
  - rewrite Hgi. now exists i, di.
Qed.

Lemma allocate_group_first_greatest_witness :
  exists s,
    (allocate_group (VStr "V1") 2 tie_lot).1 = Ok (Some "G1", s)
    /\ group_score 2 (mk_group false ["S3"; "S4"] 100) = Ok s
    /\ exists i data,
        candidates tie_lot !! i = Some ("G1", data)
        /\ group_score 2 data = Ok s
        /\ forall j gj dj, candidates tie_lot !! j = Some (gj, dj) ->
             exists sj, group_score 2 dj = Ok sj
                        /\ (sj <= s)%Q /\ (j < i -> (sj < s)%Q).
Proof.
  eexists. split; [vm_compute; reflexivity|]. split; [vm_compute; reflexivity|].
  apply (allocate_group_first_greatest (VStr "V1") 2 tie_lot (Some "G1", _)).
  vm_compute. reflexivity.
Defined.

(** ** Mappings the method can read and score: no exception, and a free
    group whenever there is one *)

Lemma exists_free_group_candidate (pd : parking_data) :
  Exists (fun p => free_group p.2) pd -> candidates pd <> [].
Proof.
  intros H Hnil. apply Exists_exists in H as ([k d] & Hin & Hfg).
  assert (Hc : In (k, d) (candidates pd)).
  { apply candidates_In. split; [now apply list_elem_of_In|].
    now apply candidate_free_group. }
  rewrite Hnil in Hc. destruct Hc.
Qed.

(** C5, as the code has it.  With a vehicle size in {1,2,3}, on a mapping
    whose records marked [is_group] carry [occupied] and whose free groups
    are scorable ([member_spaces] absent or a sequence,
    [distance_to_entrance] absent or a number that is not negative and
    whose quotient by 1000 fits a float), every candidate scores above the
    initial threshold of 0, and as soon as one free group exists the
    method returns the identifier of a free group of the mapping with that
    group's score, which is positive. *)
Theorem allocate_group_some_when_free
    (vehicle_id : pyval) (vehicle_size : Z) (pd : parking_data) :
  (1 <= vehicle_size <= 3)%Z ->
  Forall (fun p => is_group_flag p.2 = true -> has_occupied p.2 = true) pd ->
  Forall (fun p => free_group p.2 -> scorable p.2 = true) pd ->
  Exists (fun p => free_group p.2) pd ->
  (forall g d, In (g, d) (candidates pd) ->
     exists s, group_score vehicle_size d = Ok s /\ (0 < s)%Q)
  /\ exists g data s,
       (allocate_group vehicle_id vehicle_size pd).1 = Ok (Some g, s)
       /\ In (g, data) pd /\ free_group data
       /\ group_score vehicle_size data = Ok s /\ (0 < s)%Q.
Proof.
  intros [Hvs _] Hocc Hsc Hfree. split.
  - now apply candidates_scorable.
  - destruct (allocate_group_scorable vehicle_id vehicle_size pd Hvs Hocc Hsc)
      as ([g s] & Hres & [[Hnil _] | (_ & g' & data & Hg & Hin & Hfg & Hs & Hpos)]);
      simpl in *.
    + exfalso. now apply (exists_free_group_candidate pd Hfree).
    + subst g. exists g', data, s.
      split; [assumption|]. split; [assumption|]. split; [assumption|].
      split; assumption.
Qed.

Lemma allocate_group_some_when_free_witness :
  exists g data s,
    (allocate_group (VStr "V1") 3 lot).1 = Ok (Some g, s)
    /\ In (g, data) lot /\ free_group data
    /\ group_score 3 data = Ok s /\ (0 < s)%Q.
Proof.
  apply (allocate_group_some_when_free (VStr "V1") 3 lot).
  - lia.
  - repeat constructor; reflexivity.
  - repeat constructor; intros _; reflexivity.
  - apply Exists_cons_tl, Exists_cons_hd. split; reflexivity.
Defined.

(** C5 fails as stated.  With one free group, a distance that is not
    negative and a vehicle size of 1 no identifier is returned when the
    distance is the int [10**400] ([OverflowError]); the same happens when
    another record marked [is_group] has no [occupied] key ([KeyError]) or
    when [member_spaces] is [None] ([TypeError]). *)
Lemma allocate_group_free_group_not_returned :
  (Exists (fun p : string * gmap string pyval => free_group p.2)
     [("G1", mk_group false ["S1"] (10 ^ 400))]
   /\ (allocate_group (VStr "V1") 1 [("G1", mk_group false ["S1"] (10 ^ 400))]).1
      = Raise OverflowError)
  /\ (allocate_group (VStr "V1") 1
        [("G1", mk_group false ["S1"] 100); ("G4", no_occupied)]).1
     = Raise (KeyError "occupied")
  /\ (allocate_group (VStr "V1") 1
        [("G1", <["member_spaces" := VNone]> (mk_group false ["S1"] 100))]).1
     = Raise TypeError.
Proof.
  split; [split|split].
  - apply Exists_cons_hd. split; reflexivity.
  - vm_compute. reflexivity.
  - vm_compute. reflexivity.
  - vm_compute. reflexivity.
Qed.

Lemma size_match_default (vehicle_size : Z) (data : gmap string pyval) :
  data !! "member_spaces" = None ->
  size_match vehicle_size data
  = size_match vehicle_size (<["member_spaces" := VList []]> data).
Proof.
  intros H. unfold size_match, dict_get. now rewrite H, lookup_insert_eq.
Qed.

Lemma distance_score_default (data : gmap string pyval) :
  data !! "distance_to_entrance" = None ->
  distance_score data = distance_score (<["distance_to_entrance" := VInt 0]> data).
Proof.
  intros H. unfold distance_score, dict_get. now rewrite H, lookup_insert_eq.
Qed.

(** C6, as the code has it.  The method validates nothing.  For every
    vehicle size of at least 1, inside {1,2,3} or not, on a mapping whose
    records marked [is_group] carry [occupied] and whose free groups are
    scorable, it raises nothing: it returns [(None, 0)] when the mapping
    has no free group and otherwise the identifier of a free group with
    that group's positive score.  A missing [member_spaces] is scored as
    an empty sequence and a missing [distance_to_entrance] as 0. *)
Theorem allocate_group_no_validation
    (vehicle_id : pyval) (vehicle_size : Z) (pd : parking_data) :
  (1 <= vehicle_size)%Z ->
  Forall (fun p => is_group_flag p.2 = true -> has_occupied p.2 = true) pd ->
  Forall (fun p => free_group p.2 -> scorable p.2 = true) pd ->
  (exists res,
     (allocate_group vehicle_id vehicle_size pd).1 = Ok res
     /\ (Forall (fun p => ~ free_group p.2) pd -> res = (None, 0%Q))
     /\ (Exists (fun p => free_group p.2) pd ->
         exists g data,
           res.1 = Some g /\ In (g, data) pd /\ free_group data
           /\ group_score vehicle_size data = Ok res.2 /\ (0 < res.2)%Q))
  /\ (forall data : gmap string pyval,
        data !! "member_spaces" = None ->
        size_match vehicle_size data
        = size_match vehicle_size (<["member_spaces" := VList []]> data))
  /\ (forall data : gmap string pyval,
        data !! "distance_to_entrance" = None ->
        distance_score data
        = distance_score (<["distance_to_entrance" := VInt 0]> data)).
Proof.
  intros Hvs Hocc Hsc. split; [|split].
  - destruct (allocate_group_scorable vehicle_id vehicle_size pd Hvs Hocc Hsc)
      as (res & Hres & Hcase).
    exists res. split; [assumption|]. split.
    + intros Hnone. destruct Hcase as [[_ ->] | (Hne & _)]; [reflexivity|].
      exfalso. apply Hne. now apply candidates_nil.
    + intros Hex. destruct Hcase as [[Hnil _] | (_ & H)]; [|exact H].
      exfalso. now apply (exists_free_group_candidate pd Hex).
  - apply size_match_default.
  - apply distance_score_default.
Qed.

Lemma allocate_group_no_validation_witness :
  exists res,
    (allocate_group (VStr "V1") 7 lot).1 = Ok res
    /\ exists g data,
         res.1 = Some g /\ In (g, data) lot /\ free_group data
         /\ group_score 7 data = Ok res.2 /\ (0 < res.2)%Q.
Proof.
  destruct (allocate_group_no_validation (VStr "V1") 7 lot) as [(res & Hres & _ & H) _].
  - lia.
  - repeat constructor; reflexivity.
  - repeat constructor; intros _; reflexivity.
  - exists res. split; [exact Hres|]. apply H.
    apply Exists_cons_tl, Exists_cons_hd. split; reflexivity.
Defined.

(** C6 fails as stated: a vehicle size of 7 is scored like any other and a
    group is returned; a group record with neither [member_spaces] nor
    [distance_to_entrance] is scored as an empty group at the entrance. *)
Lemma allocate_group_accepts_malformed_input :
  ~ (1 <= 7 <= 3)%Z
  /\ (exists s, (allocate_group (VStr "V1") 7 [("G1", mk_group false ["S1"; "S2"] 100)]).1
                = Ok (Some "G1", s) /\ (s == 26 # 55)%Q)
  /\ (exists s, (allocate_group (VStr "V1") 2
                   [("G1", <["is_group" := VBool true]> (<["occupied" := VBool false]> ∅))]).1
                = Ok (Some "G1", s) /\ (s == 3 # 10)%Q).
Proof.
  split; [lia|]. split; eexists; (split; [vm_compute; reflexivity | reflexivity]).
Qed.

(** ** A missing distance *)




(** A later group without a recorded distance overtakes an earlier group
    of the same size one unit away from the entrance. *)
Example missing_distance_wins :
  exists s,
    (allocate_group (VStr "V1") 2
       [("G1", mk_group false ["S1"; "S2"] 1); ("G2", no_distance)]).1
    = Ok (Some "G2", s).
Proof. eexists. vm_compute. reflexivity. Qed.

(** * The other methods of the tab *)

(** ** Writes to the parking data *)

Lemma setitem_map (space_id key : string) (v : pyval) (pd : parking_data) :
  (setitem space_id key v pd).2
  = map (fun p : string * gmap string pyval =>
           if String.eqb p.1 space_id then (p.1, <[key := v]> p.2) else p) pd.
Proof. reflexivity. Qed.

Lemma mark_space_map (space_id : string) (occupied vehicle : pyval) (pd : parking_data) :
  (mark_space space_id occupied vehicle pd).2
  = map (fun p : string * gmap string pyval =>
           if String.eqb p.1 space_id then (p.1, marked occupied vehicle p.2) else p) pd.
Proof.
  unfold mark_space, mbind, M_bind, setitem. simpl. rewrite map_map.
  apply map_ext. intros [k r]. simpl.
  destruct (String.eqb k space_id) eqn:E; simpl; now rewrite ?E.
Qed.

Lemma marked_marked (o o' v v' : pyval) (data : gmap string pyval) :
  marked o' v' (marked o v data) = marked o' v' data.
Proof.
  unfold marked. apply map_eq. intros f.
  rewrite !lookup_insert. repeat case_decide; congruence.
Qed.

Lemma marked_id (o v : pyval) (data : gmap string pyval) :
  data !! "occupied" = Some o -> data !! "vehicle_id" = Some v ->
  marked o v data = data.
Proof.
  intros Ho Hv. unfold marked. apply map_eq. intros f.
  rewrite !lookup_insert. repeat case_decide; congruence.
Qed.

Lemma marked_lookup (o v : pyval) (data : gmap string pyval) (f : string) :
  marked o v data !! f
  = if String.eqb f "vehicle_id" then Some v
    else if String.eqb f "occupied" then Some o else data !! f.
Proof.
  unfold marked. rewrite !lookup_insert.
  destruct (String.eqb_spec f "vehicle_id") as [->|H1].
  - now rewrite decide_True.
  - rewrite decide_False by congruence.
    destruct (String.eqb_spec f "occupied") as [->|H2].
    + now rewrite decide_True.
    + now rewrite decide_False by congruence.
Qed.

Lemma mark_space_keys (space_id : string) (o v : pyval) (pd : parking_data) :
  ((mark_space space_id o v pd).2).*1 = pd.*1.
Proof.
  rewrite mark_space_map.
  change (map fst (map (fun p : string * gmap string pyval =>
            if String.eqb p.1 space_id then (p.1, marked o v p.2) else p) pd)
          = map fst pd).
  rewrite map_map. apply map_ext. intros [k r]. simpl.
  now destruct (String.eqb k space_id).
Qed.

Lemma dict_in_keys {V : Type} (key : string) (d : list (string * V)) :
  dict_in key d = true <-> In key d.*1.
Proof.
  unfold dict_in. rewrite existsb_exists. split.
  - intros ([k v] & Hin & Heq). apply String.eqb_eq in Heq. simpl in Heq. subst k.
    apply in_map_iff. now exists (key, v).
  - intros H. apply in_map_iff in H as ([k v] & Hk & Hin). simpl in Hk. subst k.
    exists (key, v). split; [assumption | apply String.eqb_refl].
Qed.

Lemma dict_in_same_keys {V W : Type} (key : string)
    (d : list (string * V)) (d' : list (string * W)) :
  d.*1 = d'.*1 -> dict_in key d = dict_in key d'.
Proof.
  intros H. apply eq_true_iff_eq. now rewrite !dict_in_keys, H.
Qed.

Lemma reset_loop_map (ids : list string) (pd : parking_data) :
  (reset_loop ids pd).2
  = map (fun p : string * gmap string pyval =>
           if existsb (String.eqb p.1) ids
           then (p.1, marked (VBool false) VNone p.2) else p) pd.
Proof.
  revert pd. induction ids as [|id rest IH]; intros pd.
  - simpl. symmetry. apply map_id.
  - change ((reset_loop (id :: rest)) pd)
      with (reset_loop rest (mark_space id (VBool false) VNone pd).2).
    rewrite IH, mark_space_map, map_map. apply map_ext. intros [k r]. simpl.
    destruct (String.eqb k id) eqn:E; simpl; [|reflexivity].
    destruct (existsb (String.eqb k) rest); [|reflexivity].
    now rewrite marked_marked.
Qed.

Lemma reset_parking_data_map (pd : parking_data) :
  (reset_parking_data pd).2
  = map (fun p : string * gmap string pyval =>
           (p.1, marked (VBool false) VNone p.2)) pd.
Proof.
  change (reset_parking_data pd) with (reset_loop (map fst pd) pd).
  rewrite reset_loop_map. apply map_ext_in. intros [k r] Hin. simpl.
  assert (H : existsb (String.eqb k) (map fst pd) = true).
  { apply existsb_exists. exists k. split; [|apply String.eqb_refl].
    apply in_map_iff. now exists (k, r). }
  now rewrite H.
Qed.

(** ** reset_simulation *)

Lemma reset_simulation_confirmed (show : bool) (st : tab_state) :
  reset_simulation true show st
  = {| parking := map (fun p : string * gmap string pyval =>
                         (p.1, marked (VBool false) VNone p.2)) (parking st);
       allocated_vehicles := [];
       next_vehicle_id := 1 |}.
Proof.
  unfold reset_simulation, update_visualization_data.
  cbn [negb parking allocated_vehicles next_vehicle_id reflect_allocations].
  rewrite reset_parking_data_map. now destruct show.
Qed.

(** X1. A confirmed reset rewrites every record to [occupied = False],
    [vehicle_id = None], keeps every other field, the identifiers and their
    order, empties [allocated_vehicles] and restarts the counter at 1. *)
Theorem reset_simulation_marks_all_free (show : bool) (st : tab_state) :
  reset_simulation true show st
  = {| parking := map (fun p : string * gmap string pyval =>
                         (p.1, marked (VBool false) VNone p.2)) (parking st);
       allocated_vehicles := [];
       next_vehicle_id := 1 |}.
Proof. apply reset_simulation_confirmed. Qed.

(** X2. Resetting is idempotent: after a confirmed reset a second reset,
    confirmed or not, changes nothing. *)
Theorem reset_simulation_idempotent (confirm show show' : bool) (st : tab_state) :
  reset_simulation confirm show' (reset_simulation true show st)
  = reset_simulation true show st.
Proof.
  destruct confirm; [|reflexivity].
  rewrite (reset_simulation_confirmed show' (reset_simulation true show st)).
  rewrite reset_simulation_confirmed. simpl. f_equal.
  rewrite map_map. apply map_ext. intros [k r]. simpl.
  now rewrite marked_marked.
Qed.

Lemma lookup_is_group_marked (o v : pyval) (data : gmap string pyval) :
  is_group_flag (marked o v data) = is_group_flag data.
Proof. unfold is_group_flag, dict_get. now rewrite marked_lookup. Qed.

Lemma is_free_group_marked_free (v : pyval) (data : gmap string pyval) :
  is_free_group (marked (VBool false) v data) = Ok (is_group_flag data).
Proof.
  unfold is_free_group, dict_getitem.
  change (truthy (dict_get (marked (VBool false) v data) "is_group" (VBool false)))
    with (is_group_flag (marked (VBool false) v data)).
  rewrite lookup_is_group_marked, marked_lookup. simpl.
  now destruct (is_group_flag data).
Qed.

Lemma size_match_not_KeyError (vehicle_size : Z) (data : gmap string pyval) (key : string) :
  size_match vehicle_size data <> Raise (KeyError key).
Proof.
  unfold size_match, int_truediv.
  destruct (py_len (dict_get data "member_spaces" (VList []))) as [mc|e] eqn:E; simpl.
  - destruct (Z.max mc vehicle_size =? 0)%Z; [discriminate|].
    destruct (overflows _); discriminate.
  - destruct (dict_get data "member_spaces" (VList [])); simpl in E; congruence.
Qed.

Lemma distance_score_not_KeyError (data : gmap string pyval) (key : string) :
  distance_score data <> Raise (KeyError key).
Proof.
  unfold distance_score, by_thousand, truediv.
  destruct (as_number (dict_get data "distance_to_entrance" (VInt 0))) as [d|e] eqn:E; simpl.
  - destruct (is_int _ && overflows _); simpl; [discriminate|].
    destruct (Qeq_bool (1 + d / 1000) 0); discriminate.
  - destruct (dict_get data "distance_to_entrance" (VInt 0)); simpl in E; congruence.
Qed.

Lemma best_group_loop_not_KeyError (vehicle_size : Z) (groups : parking_data) (key : string) :
  forall best_group best_score,
    best_group_loop vehicle_size groups best_group best_score <> Raise (KeyError key).
Proof.
  induction groups as [|[g d] rest IH]; intros bg bs; simpl; [discriminate|].
  unfold group_score.
  pose proof (size_match_not_KeyError vehicle_size d key) as Hsm.
  pose proof (distance_score_not_KeyError d key) as Hds.
  destruct (size_match vehicle_size d) as [sm|e1]; simpl; [|congruence].
  destruct (distance_score d) as [ds|e2]; simpl; [|congruence].
  destruct (Qgtb _ bs); apply IH.
Qed.

Lemma free_groups_of_all_free (pd : parking_data) :
  free_groups_of (map (fun p : string * gmap string pyval =>
                         (p.1, marked (VBool false) VNone p.2)) pd)
  = Ok (map (fun p : string * gmap string pyval =>
               (p.1, marked (VBool false) VNone p.2))
          (List.filter (fun p => is_group_flag p.2) pd)).
Proof.
  induction pd as [|[k r] rest IH]; [reflexivity|].
  simpl. rewrite is_free_group_marked_free, IH. simpl.
  now destruct (is_group_flag r).
Qed.

(** X3. After a confirmed reset [allocate_group] cannot raise a
    [KeyError]: every record has its [occupied] field, and the candidates
    are exactly the records marked [is_group], in their order. *)
Theorem allocate_group_after_reset
    (show : bool) (st : tab_state) (vehicle_id : pyval) (vehicle_size : Z)
    (key : string) :
  (allocate_group vehicle_id vehicle_size (parking (reset_simulation true show st))).1
    <> Raise (KeyError key)
  /\ free_groups_of (parking (reset_simulation true show st))
     = Ok (List.filter (fun p => is_group_flag p.2)
             (parking (reset_simulation true show st))).
Proof.
  rewrite reset_simulation_confirmed. simpl.
  rewrite allocate_group_unfold, free_groups_of_all_free. simpl. split.
  - rewrite best_group_loop_nil_eq. apply best_group_loop_not_KeyError.
  - f_equal. induction (parking st) as [|[k r] rest IH]; [reflexivity|].
    simpl. rewrite lookup_is_group_marked.
    destruct (is_group_flag r); simpl; now rewrite IH.
Qed.

(** ** update_statistics and the free count of the visualization *)


Lemma filter_length_mono {A : Type} (f g : A -> bool) (l : list A) :
  (forall a, In a l -> f a = true -> g a = true) ->
  (Z.of_nat (length (List.filter f l)) <= Z.of_nat (length (List.filter g l)))%Z.
Proof.
  induction l as [|a l IH]; intros H; simpl; [lia|].
  assert (IH' := IH (fun b Hb => H b (or_intror Hb))).
  pose proof (H a (or_introl eq_refl)) as Ha.
  destruct (f a); [rewrite (Ha eq_refl)|destruct (g a)]; simpl; lia.
Qed.

Lemma py_eq_False_falsy (v : pyval) : py_eq_False v = true -> truthy v = false.
Proof.
  destruct v; simpl; try discriminate.
  - now destruct b.
  - now intros ->.
  - now intros ->.
Qed.

Lemma int_truediv_fraction (a b : Z) :
  (0 <= a <= b)%Z -> (0 < b)%Z ->
  int_truediv a b = Ok (inject_Z a / inject_Z b)%Q
  /\ (0 <= inject_Z a / inject_Z b)%Q /\ (inject_Z a / inject_Z b <= 1)%Q.
Proof.
  intros Ha Hb.
  assert (Ht : (0 < inject_Z b)%Q) by (apply inject_Z_pos; lia).
  assert (Ho : (0 <= inject_Z a)%Q) by (apply inject_Z_nonneg; lia).
  assert (Hle : (inject_Z a <= inject_Z b)%Q) by (rewrite <- Zle_Qle; lia).
  assert (H0 : (0 <= inject_Z a / inject_Z b)%Q) by (apply Qle_shift_div_l; lra).
  assert (H1 : (inject_Z a / inject_Z b <= 1)%Q) by (apply Qle_shift_div_r; lra).
  split; [|split; assumption].
  unfold int_truediv. destruct (Z.eqb_spec b 0) as [E|_]; [lia|].
  now rewrite overflows_unit.
Qed.


Lemma statistics_free_le_free_count (st : tab_state) :
  (free_spaces (update_statistics st) <= free_count (parking st))%Z.
Proof.
  unfold update_statistics, free_count. simpl.
  apply filter_length_mono. intros [k r] _ H. simpl in *.
  unfold is_free_space, dict_get in *.
  destruct (r !! "occupied") as [v|]; simpl in *; [|discriminate].
  now rewrite (py_eq_False_falsy v H).
Qed.

(** A space whose [occupied] field is [None] is free in the title and
    occupied in the statistics. *)
Example update_statistics_free_differs :
  let st := initial_state [("S1-A1", <["occupied" := VNone]> ∅)] in
  free_spaces (update_statistics st) = 0%Z /\ title_free_count st = 1%Z.
Proof. split; vm_compute; reflexivity. Qed.

(** Statistics computed before the redraw can count more free spaces than
    the title, when a vehicle is allocated to a space that is not marked:
    the redraw marks the space first. *)
Example update_statistics_before_redraw :
  let st := {| parking := [("S1", mk_space false "A1" 120); ("S2", mk_space false "A1" 150)];
               allocated_vehicles := [("V1", "S1")];
               next_vehicle_id := 2 |} in
  free_spaces (update_statistics st) = 2%Z
  /\ title_free_count st = 1%Z
  /\ free_spaces (update_statistics (update_visualization_data true st)) = 1%Z.
Proof. repeat split; vm_compute; reflexivity. Qed.

(** X6. After a confirmed reset every space is free in both counts, no
    space is occupied and the occupancy rate is 0. *)
Theorem update_statistics_after_reset (show : bool) (st : tab_state) :
  let s := update_statistics (reset_simulation true show st) in
  total_spaces s = Z.of_nat (length (parking st))
  /\ free_spaces s = total_spaces s
  /\ free_count (parking (reset_simulation true show st)) = total_spaces s
  /\ occupied_spaces s = 0%Z
  /\ (occupancy_rate s == 0)%Q
  /\ allocations s = 0%Z.
Proof.
  rewrite reset_simulation_confirmed.
  assert (Hall : forall (f : string * gmap string pyval -> bool) (pd : parking_data),
             (forall p, f (p.1, marked (VBool false) VNone p.2) = true) ->
             List.filter f (map (fun p : string * gmap string pyval =>
                                   (p.1, marked (VBool false) VNone p.2)) pd)
             = map (fun p : string * gmap string pyval =>
                      (p.1, marked (VBool false) VNone p.2)) pd).
  { intros f pd Hf. induction pd as [|p rest IH]; [reflexivity|].
    simpl. now rewrite Hf, IH. }
  unfold update_statistics, free_count. simpl.
  rewrite !Hall.
  - rewrite !length_map, Z.sub_diag.
    split; [reflexivity|]. split; [reflexivity|]. split; [reflexivity|].
    split; [reflexivity|]. split; [|reflexivity].
    destruct (Z.gtb_spec (Z.of_nat (length (parking st))) 0) as [Hpos|_]; [|reflexivity].
    destruct (int_truediv_fraction 0 (Z.of_nat (length (parking st)))) as (-> & _);
      [lia | lia |].
    unfold Qdiv. change (inject_Z 0) with 0%Q. ring.
  - intros p. simpl. unfold is_free_space, dict_get. now rewrite marked_lookup.
  - intros p. simpl. unfold dict_get. now rewrite marked_lookup.
Qed.

(** ** The grid of update_visualization *)

Lemma grid_cols_min (total : Z) : (4 <= grid_cols total)%Z.
Proof. unfold grid_cols. destruct (total >? 0)%Z; lia. Qed.

Lemma Qceiling_div_bounds (t c : Z) :
  (0 < c)%Z ->
  (t <= Qceiling (inject_Z t / inject_Z c) * c
   /\ (Qceiling (inject_Z t / inject_Z c) - 1) * c < t)%Z.
Proof.
  intros Hc.
  assert (Hcq : (0 < inject_Z c)%Q) by now apply inject_Z_pos.
  assert (Ht : (inject_Z t == inject_Z t / inject_Z c * inject_Z c)%Q).
  { field. intros E. rewrite E in Hcq. now apply Qlt_irrefl in Hcq. }
  set (x := (inject_Z t / inject_Z c)%Q) in *.
  pose proof (Qle_ceiling x) as Hup. pose proof (Qceiling_lt x) as Hlo.
  split.
  - rewrite Zle_Qle, inject_Z_mult, Ht.
    apply Qmult_le_compat_r; [assumption | now apply Qlt_le_weak].
  - rewrite Zlt_Qlt, inject_Z_mult, Ht.
    apply Qmult_lt_compat_r; assumption.
Qed.

Lemma grid_covers_lot (total : Z) :
  (0 < total)%Z ->
  (4 <= grid_cols total
   /\ 1 <= grid_rows total <= grid_cols total
   /\ total <= grid_rows total * grid_cols total
   /\ (grid_rows total - 1) * grid_cols total < total)%Z.
Proof.
  intros Hpos. pose proof (grid_cols_min total) as Hmin.
  assert (Hsq : (total <= grid_cols total * grid_cols total)%Z).
  { unfold grid_cols. destruct (Z.gtb_spec total 0) as [_|]; [|lia].
    pose proof (Z.sqrt_up_spec total Hpos) as [_ Hs].
    pose proof (Z.sqrt_up_nonneg total).
    rewrite <- Z.pow_2_r in *. nia. }
  destruct (Qceiling_div_bounds total (grid_cols total)) as [Hup Hlo]; [lia|].
  unfold grid_rows at 1 2 3 4. destruct (Z.gtb_spec total 0) as [_|]; [|lia].
  repeat split; try assumption; nia.
Qed.

(** X7. For a non-empty lot the grid has at least four columns, is never
    higher than wide, has a cell for every space and no empty row. *)
Theorem grid_shape (total : Z) :
  (0 < total)%Z ->
  (4 <= grid_cols total
   /\ 1 <= grid_rows total <= grid_cols total
   /\ total <= grid_rows total * grid_cols total
   /\ (grid_rows total - 1) * grid_cols total < total)%Z.
Proof. apply grid_covers_lot. Qed.

Lemma grid_shape_witness :
  (4 <= grid_cols 17
   /\ 1 <= grid_rows 17 <= grid_cols 17
   /\ 17 <= grid_rows 17 * grid_cols 17
   /\ (grid_rows 17 - 1) * grid_cols 17 < 17)%Z.
Proof. apply (grid_shape 17). lia. Defined.

(** X8. The rectangle of every space lies inside the limits of the plot,
    at least a margin away from each border. *)
Theorem cell_inside_plot (total i : Z) :
  (0 <= i < total)%Z ->
  (margin <= (cell_origin total i).1
   /\ (cell_origin total i).1 + (space_w - 5) <= (plot_limits total).1 - margin
   /\ margin <= (cell_origin total i).2
   /\ (cell_origin total i).2 + (space_h - 5) <= (plot_limits total).2 - margin)%Z.
Proof.
  intros Hi.
  destruct (grid_covers_lot total) as (Hc & Hr & Hcover & _); [lia|].
  unfold cell_origin, plot_limits, margin, space_w, space_h. simpl.
  set (cols := grid_cols total) in *. set (rows := grid_rows total) in *.
  pose proof (Z.mod_pos_bound i cols ltac:(lia)) as Hcol.
  assert (Hrow : (0 <= i / cols < rows)%Z).
  { split; [apply Z.div_pos; lia|]. apply Z.div_lt_upper_bound; nia. }
  lia.
Qed.

Lemma cell_inside_plot_witness :
  (margin <= (cell_origin 17 16).1
   /\ (cell_origin 17 16).1 + (space_w - 5) <= (plot_limits 17).1 - margin
   /\ margin <= (cell_origin 17 16).2
   /\ (cell_origin 17 16).2 + (space_h - 5) <= (plot_limits 17).2 - margin)%Z.
Proof. apply (cell_inside_plot 17 16). lia. Defined.

(** X9. The rectangles of two different spaces never overlap: they are
    side by side or one above the other. *)
Theorem cells_disjoint (total i j : Z) :
  (0 <= i < j)%Z ->
  ((cell_origin total i).1 + (space_w - 5) < (cell_origin total j).1
   \/ (cell_origin total j).1 + (space_w - 5) < (cell_origin total i).1
   \/ (cell_origin total i).2 + (space_h - 5) < (cell_origin total j).2
   \/ (cell_origin total j).2 + (space_h - 5) < (cell_origin total i).2)%Z.
Proof.
  intros Hij. pose proof (grid_cols_min total) as Hc.
  unfold cell_origin, margin, space_w, space_h. simpl.
  set (cols := grid_cols total) in *. set (rows := grid_rows total).
  pose proof (Z.mod_pos_bound i cols ltac:(lia)).
  pose proof (Z.mod_pos_bound j cols ltac:(lia)).
  pose proof (Z.div_mod i cols ltac:(lia)).
  pose proof (Z.div_mod j cols ltac:(lia)).
  destruct (Z.eq_dec (i / cols)%Z (j / cols)%Z) as [E|E]; [|lia].
  rewrite E in *. lia.
Qed.

Lemma cells_disjoint_witness :
  ((cell_origin 17 4).1 + (space_w - 5) < (cell_origin 17 5).1
   \/ (cell_origin 17 5).1 + (space_w - 5) < (cell_origin 17 4).1
   \/ (cell_origin 17 4).2 + (space_h - 5) < (cell_origin 17 5).2
   \/ (cell_origin 17 5).2 + (space_h - 5) < (cell_origin 17 4).2)%Z.
Proof. apply (cells_disjoint 17 4 5). lia. Defined.

(** ** update_visualization writes to the parking data *)

Lemma mark_space_absent (space_id : string) (o v : pyval) (pd : parking_data) :
  dict_in space_id pd = false -> (mark_space space_id o v pd).2 = pd.
Proof.
  intros H. rewrite mark_space_map.
  rewrite <- (map_id pd) at 2. apply map_ext_in. intros [k r] Hin. simpl.
  destruct (String.eqb_spec k space_id) as [->|]; [|reflexivity].
  exfalso. apply not_true_iff_false in H. apply H, dict_in_keys.
  apply in_map_iff. now exists (space_id, r).
Qed.

Lemma reflect_allocations_map (allocated : list (string * string)) (pd : parking_data) :
  (reflect_allocations allocated pd).2
  = map (fun p : string * gmap string pyval =>
           match vehicle_at p.1 allocated with
           | Some v => (p.1, marked (VBool true) (VStr v) p.2)
           | None => p
           end) pd.
Proof.
  revert pd. induction allocated as [|[v s] rest IH]; intros pd.
  - simpl. symmetry. apply map_id.
  - assert (Hstep : (reflect_allocations ((v, s) :: rest) pd).2
                    = (reflect_allocations rest
                         (mark_space s (VBool true) (VStr v) pd).2).2).
    { destruct (dict_in s pd) eqn:E.
      - simpl. unfold mbind, M_bind, read_items. simpl. now rewrite E.
      - rewrite (mark_space_absent s _ _ pd E).
        simpl. unfold mbind, M_bind, read_items. simpl. now rewrite E. }
    rewrite Hstep, IH, mark_space_map, map_map. apply map_ext. intros [k r]. simpl.
    destruct (String.eqb_spec k s) as [->|Hne]; simpl.
    + rewrite String.eqb_refl.
      destruct (vehicle_at s rest); [now rewrite marked_marked | reflexivity].
    + assert (String.eqb s k = false) as -> by (apply String.eqb_neq; congruence).
      now destruct (vehicle_at k rest).
Qed.

Lemma vehicle_at_In (space_id v : string) (allocated : list (string * string)) :
  vehicle_at space_id allocated = Some v -> In (v, space_id) allocated.
Proof.
  induction allocated as [|[v' s] rest IH]; simpl; [discriminate|].
  destruct (vehicle_at space_id rest) as [v''|].
  - intros [= ->]. right. now apply IH.
  - destruct (String.eqb_spec s space_id) as [->|]; [|discriminate].
    intros [= ->]. now left.
Qed.

Lemma vehicle_at_None (space_id : string) (allocated : list (string * string)) :
  vehicle_at space_id allocated = None <-> ~ In space_id allocated.*2.
Proof.
  induction allocated as [|[v' s] rest IH]; simpl; [tauto|].
  destruct (vehicle_at space_id rest) as [v''|].
  - split; [discriminate|]. intros H. exfalso.
    assert (Hn : ~ In space_id rest.*2) by (intros Hin; apply H; now right).
    apply IH in Hn. discriminate Hn.
  - destruct (String.eqb_spec s space_id) as [->|Hne].
    + split; [discriminate | intros H; exfalso; apply H; now left].
    + split; [|reflexivity]. intros _ [H|H]; [congruence|].
      now apply (proj1 IH).
Qed.

(** X10. Drawing the visualization is not read-only.  With the
    visualization shown, every space on which an allocated vehicle stands
    is rewritten in the parking data of the manager to [occupied = True]
    with the identifier of the last such vehicle; the spaces without an
    allocated vehicle, the identifiers and their order are kept.  With the
    visualization hidden nothing is written. *)
Theorem update_visualization_reflects_allocations (st : tab_state) :
  update_visualization_data true st
  = {| parking := map (fun p : string * gmap string pyval =>
                         match vehicle_at p.1 (allocated_vehicles st) with
                         | Some v => (p.1, marked (VBool true) (VStr v) p.2)
                         | None => p
                         end) (parking st);
       allocated_vehicles := allocated_vehicles st;
       next_vehicle_id := next_vehicle_id st |}
  /\ update_visualization_data false st = st.
Proof.
  split; [|reflexivity].
  unfold update_visualization_data. now rewrite reflect_allocations_map.
Qed.

(** A space that the parking data shows free while a vehicle is still
    allocated to it is taken again by the next redraw, which changes what
    [allocate_group] returns. *)
Example update_visualization_changes_allocation :
  let st := {| parking := lot;
               allocated_vehicles := [("V1", "G1")];
               next_vehicle_id := 2 |} in
  (exists s, (allocate_group (VStr "V2") 2 (parking st)).1 = Ok (Some "G1", s))
  /\ (exists s, (allocate_group (VStr "V2") 2
                   (parking (update_visualization_data true st))).1
                = Ok (Some "G2", s)).
Proof. split; eexists; vm_compute; reflexivity. Qed.

(** ** Dict operations and identifiers *)

Lemma dict_set_fresh {V : Type} (key : string) (v : V) (d : list (string * V)) :
  dict_in key d = false -> dict_set key v d = (d ++ [(key, v)])%list.
Proof.
  unfold dict_in. induction d as [|[k v'] rest IH]; simpl; [reflexivity|].
  destruct (String.eqb k key); simpl; [discriminate|].
  intros H. now rewrite IH.
Qed.

Lemma dict_set_In {V : Type} (key : string) (v : V) (d : list (string * V))
    (p : string * V) :
  In p (dict_set key v d) -> p = (key, v) \/ In p d.
Proof.
  induction d as [|[k v'] rest IH]; simpl.
  - intros [<-|[]]. now left.
  - destruct (String.eqb_spec k key) as [->|Hne]; simpl.
    + intros [<-|H]; [now left | right; now right].
    + intros [<-|H]; [right; now left|].
      destruct (IH H) as [->|H']; [now left | right; now right].
Qed.

Lemma dict_set_keys {V : Type} (key : string) (v : V) (d : list (string * V)) :
  (dict_set key v d).*1 = if dict_in key d then d.*1 else (d.*1 ++ [key])%list.
Proof.
  unfold dict_in. induction d as [|[k v'] rest IH]; csimpl; [reflexivity|].
  destruct (String.eqb_spec k key) as [->|Hne]; csimpl; [reflexivity|].
  rewrite IH. now destruct (existsb _ rest).
Qed.

Lemma dict_set_NoDup {V : Type} (key : string) (v : V) (d : list (string * V)) :
  NoDup d.*1 -> NoDup (dict_set key v d).*1.
Proof.
  intros H. rewrite dict_set_keys. destruct (dict_in key d) eqn:E; [assumption|].
  apply NoDup_app. split; [assumption|]. split; [|apply NoDup_singleton].
  intros k Hk Hk'. apply list_elem_of_singleton in Hk'. subst k.
  apply not_true_iff_false in E. apply E, dict_in_keys. now apply list_elem_of_In.
Qed.

Lemma dict_del_In {V : Type} (key : string) (d : list (string * V)) (p : string * V) :
  In p (dict_del key d) <-> In p d /\ p.1 <> key.
Proof.
  unfold dict_del. rewrite filter_In, negb_true_iff.
  now rewrite String.eqb_neq.
Qed.

Lemma dict_del_NoDup {V : Type} (key : string) (d : list (string * V)) :
  NoDup d.*1 -> NoDup (dict_del key d).*1.
Proof.
  unfold dict_del. induction d as [|[k v] rest IH]; simpl; [trivial|].
  intros H. apply NoDup_cons in H as [Hk Hnd].
  destruct (String.eqb k key); simpl; [now apply IH|].
  apply NoDup_cons. split; [|now apply IH].
  intros Hin. apply Hk. apply list_elem_of_fmap in Hin as ([k' v'] & -> & Hin).
  apply list_elem_of_In, filter_In in Hin as [Hin _].
  apply list_elem_of_fmap. exists (k', v'). split; [reflexivity | now apply list_elem_of_In].
Qed.

Lemma dict_lookup_In {V : Type} (key : string) (v : V) (d : list (string * V)) :
  dict_lookup key d = Some v -> In (key, v) d.
Proof.
  induction d as [|[k v'] rest IH]; simpl; [discriminate|].
  destruct (String.eqb_spec k key) as [->|Hne].
  - intros [= ->]. now left.
  - intros H. right. now apply IH.
Qed.

Lemma dict_lookup_key {V : Type} (key : string) (d : list (string * V)) :
  In key d.*1 -> exists v, dict_lookup key d = Some v.
Proof.
  induction d as [|[k v'] rest IH]; simpl; [intros []|].
  destruct (String.eqb_spec k key) as [->|Hne]; [eauto|].
  intros [H|H]; [congruence | now apply IH].
Qed.

Lemma dict_lookup_NoDup {V : Type} (key : string) (v : V) (d : list (string * V)) :
  NoDup d.*1 -> In (key, v) d -> dict_lookup key d = Some v.
Proof.
  induction d as [|[k v'] rest IH]; simpl; [intros _ []|].
  intros Hnd Hin. apply NoDup_cons in Hnd as [Hk Hnd].
  destruct (String.eqb_spec k key) as [->|Hne].
  - destruct Hin as [[= ->]|Hin]; [reflexivity|].
    exfalso. apply Hk, list_elem_of_fmap. exists (key, v).
    split; [reflexivity | now apply list_elem_of_In].
  - destruct Hin as [[= -> ->]|Hin]; [congruence | now apply IH].
Qed.

Lemma dict_del_last {V : Type} (key : string) (v : V) (d : list (string * V)) :
  dict_in key d = false -> dict_del key (d ++ [(key, v)])%list = d.
Proof.
  unfold dict_in, dict_del. induction d as [|[k v'] rest IH]; simpl.
  - now rewrite String.eqb_refl.
  - destruct (String.eqb k key); simpl; [discriminate|].
    intros H. now rewrite IH.
Qed.

Lemma str_of_int_inj (a b : Z) : str_of_int a = str_of_int b -> a = b.
Proof.
  unfold str_of_int. intros H.
  assert (Hnn : forall z, Z.to_int z <> Decimal.Pos Decimal.Nil
                          /\ Z.to_int z <> Decimal.Neg Decimal.Nil).
  { intros [|p|p]; simpl; split; try discriminate;
      intros [= E]; now apply (DecimalPos.Unsigned.to_uint_nonnil p). }
  apply (f_equal NilZero.int_of_string) in H.
  rewrite !NilZero.isi in H by apply Hnn.
  injection H as H. now apply DecimalZ.to_int_inj.
Qed.

Lemma vehicle_name_inj (a b : Z) :
  "V" ++ str_of_int a = "V" ++ str_of_int b -> a = b.
Proof. simpl. intros [= H]. now apply str_of_int_inj. Qed.

(** ** The allocation and removal methods *)

Lemma commit_allocation_cases (vehicle_id : string) (answer : option string * Q)
    (st : tab_state) :
  (commit_allocation vehicle_id answer st).2 = st
  /\ (forall v s q, (commit_allocation vehicle_id answer st).1 <> AllocationSuccess v s q)
  \/ exists space_id,
       answer.1 = Some space_id
       /\ dict_in space_id (parking st) = true
       /\ commit_allocation vehicle_id answer st
          = (AllocationSuccess vehicle_id space_id answer.2,
             {| parking :=
                  (mark_space space_id (VBool true) (VStr vehicle_id) (parking st)).2;
                allocated_vehicles :=
                  dict_set vehicle_id space_id (allocated_vehicles st);
                next_vehicle_id := next_vehicle_id st + 1 |}).
Proof.
  unfold commit_allocation. destruct answer as [[s|] q]; simpl.
  - destruct (negb (String.eqb s "")); [|left; split; [reflexivity | discriminate]].
    destruct (dict_in s (parking st)) eqn:E.
    + right. exists s. now repeat split.
    + left. split; [reflexivity | discriminate].
  - left. split; [reflexivity | discriminate].
Qed.

Lemma perform_allocation_cases (engine : allocation_engine) (vehicle_size : Z)
    (preferred_section : option string) (weight : Q) (st : tab_state) :
  let r := _perform_allocation engine vehicle_size preferred_section weight st in
  (r.2 = st /\ forall v s q, r.1 <> AllocationSuccess v s q)
  \/ exists space_id score,
       engine weight (parking st) vehicle_size preferred_section
         = Ok (Some space_id, score)
       /\ dict_in space_id (parking st) = true
       /\ r = (AllocationSuccess ("V" ++ str_of_int (next_vehicle_id st)) space_id score,
               {| parking :=
                    (mark_space space_id (VBool true)
                       (VStr ("V" ++ str_of_int (next_vehicle_id st))) (parking st)).2;
                  allocated_vehicles :=
                    dict_set ("V" ++ str_of_int (next_vehicle_id st)) space_id
                      (allocated_vehicles st);
                  next_vehicle_id := next_vehicle_id st + 1 |}).
Proof.
  unfold _perform_allocation.
  destruct (List.filter _ (parking st)); [left; split; [reflexivity | discriminate]|].
  destruct (engine weight (parking st) vehicle_size preferred_section)
    as [answer|e] eqn:E; [|left; split; [reflexivity | discriminate]].
  destruct (commit_allocation_cases ("V" ++ str_of_int (next_vehicle_id st)) answer st)
    as [H | (s & Hs & Hin & Heq)]; [now left|].
  right. exists s, answer.2. destruct answer as [a q]. simpl in *. subst a.
  now repeat split.
Qed.

Lemma commit_allocation_no_error (vehicle_id : string) (answer : option string * Q)
    (st : tab_state) (e : exn) :
  (commit_allocation vehicle_id answer st).1 <> ErrorMessage e
  /\ (commit_allocation vehicle_id answer st).1 <> UnboundError.
Proof.
  unfold commit_allocation. destruct answer.1 as [s|]; [|split; discriminate].
  destruct (truthy (VStr s)); [|split; discriminate].
  destruct (dict_in s (parking st)); split; discriminate.
Qed.

Lemma allocate_vehicle_thread_unfold
    (engine : allocation_engine) (vehicle_size : Z) (section : string) (weight : Q)
    (st : tab_state) :
  _allocate_vehicle_thread engine vehicle_size section weight st
  = match parking st with
    | [] => (NoParkingData, st)
    | _ :: _ =>
        match _perform_allocation engine vehicle_size
                (if String.eqb section "Any" then None else Some section) weight st
        with
        | (ErrorMessage _, st') => (UnboundError, st')
        | r => r
        end
    end.
Proof.
  unfold _allocate_vehicle_thread, _perform_allocation.
  destruct (parking st) as [|p rest]; [reflexivity|].
  destruct (List.filter _ (p :: rest)); [reflexivity|].
  destruct (engine weight (p :: rest) vehicle_size _) as [answer|e]; [|reflexivity].
  pose proof (fun e => proj1 (commit_allocation_no_error
                                ("V" ++ str_of_int (next_vehicle_id st)) answer st e)) as H.
  destruct (commit_allocation _ answer st) as [m st']. simpl in H.
  destruct m; try reflexivity. now destruct (H e).
Qed.

(** X11. The two allocation methods are the same procedure up to the error
    box.  On an empty parking data [_allocate_vehicle_thread] reports that
    there is no data where [_perform_allocation] reports that no space is
    free.  On a non-empty one both leave the same state, with the section
    "Any" read as no preference, and queue the same message, except when
    the engine raises: [_perform_allocation] queues the error box with the
    text of the exception, [_allocate_vehicle_thread] a callback that
    cannot show it, and neither changes the state. *)
Theorem allocate_vehicle_thread_performs_allocation
    (engine : allocation_engine) (vehicle_size : Z) (section : string) (weight : Q)
    (st : tab_state) :
  let preferred_section := if String.eqb section "Any" then None else Some section in
  let thread := _allocate_vehicle_thread engine vehicle_size section weight st in
  let direct := _perform_allocation engine vehicle_size preferred_section weight st in
  (parking st = [] -> thread = (NoParkingData, st) /\ direct = (NoFreeSpaces, st))
  /\ (parking st <> [] ->
      thread.2 = direct.2
      /\ ((forall e, direct.1 <> ErrorMessage e) -> thread.1 = direct.1)
      /\ (forall e, direct.1 = ErrorMessage e ->
            engine weight (parking st) vehicle_size preferred_section = Raise e
            /\ thread = (UnboundError, st) /\ direct.2 = st))
  /\ (forall e, thread.1 <> ErrorMessage e)
  /\ (forall e, engine weight (parking st) vehicle_size preferred_section = Raise e ->
        In true (map (fun p => is_free_space p.2) (parking st)) ->
        thread = (UnboundError, st) /\ direct = (ErrorMessage e, st)).
Proof.
  cbv zeta. split; [|split; [|split]].
  - intros E. unfold _allocate_vehicle_thread, _perform_allocation. now rewrite E.
  - intros Hne. rewrite allocate_vehicle_thread_unfold.
    destruct (parking st) as [|p rest] eqn:Hpd; [congruence|].
    unfold _perform_allocation. rewrite Hpd.
    destruct (List.filter _ (p :: rest)).
    { simpl. split; [reflexivity|]. split; [reflexivity | discriminate]. }
    destruct (engine weight (p :: rest) vehicle_size _) as [answer|e0].
    + pose proof (fun e => proj1 (commit_allocation_no_error
                                    ("V" ++ str_of_int (next_vehicle_id st)) answer st e)) as H.
      destruct (commit_allocation _ answer st) as [m st']. simpl in H.
      destruct m; simpl; try (split; [reflexivity|]; split; [reflexivity | discriminate]).
      now destruct (H e).
    + simpl. split; [reflexivity|]. split.
      * intros H. now destruct (H e0).
      * intros e [= <-]. now repeat split.
  - intros e. rewrite allocate_vehicle_thread_unfold.
    destruct (parking st); [discriminate|].
    destruct (_perform_allocation _ _ _ _ _) as [m st']. destruct m; discriminate.
  - intros e He Hfree.
    assert (Hf : List.filter (fun p : string * gmap string pyval => is_free_space p.2)
                   (parking st) <> []).
    { apply in_map_iff in Hfree as (p & Hp & Hin). intros Hnil.
      assert (Hin' : In p (List.filter (fun p : string * gmap string pyval =>
                                          is_free_space p.2) (parking st)))
        by (apply filter_In; now split).
      rewrite Hnil in Hin'. destruct Hin'. }
    unfold _allocate_vehicle_thread, _perform_allocation.
    destruct (parking st) as [|p rest] eqn:Hpd; [destruct Hfree|].
    destruct (List.filter _ (p :: rest)); [congruence|].
    now rewrite He.
Qed.

(** With an engine that raises, the two methods queue different
    callbacks. *)
Example allocate_vehicle_thread_error :
  let engine : allocation_engine := fun _ _ _ _ => Raise TypeError in
  _perform_allocation engine 2 None (3 # 10) (initial_state lot)
  = (ErrorMessage TypeError, initial_state lot)
  /\ _allocate_vehicle_thread engine 2 "Any" (3 # 10) (initial_state lot)
     = (UnboundError, initial_state lot).
Proof. split; reflexivity. Qed.

Lemma allocate_vehicle_thread_step (engine : allocation_engine) (vehicle_size : Z)
    (section : string) (weight : Q) (st : tab_state) :
  (_allocate_vehicle_thread engine vehicle_size section weight st).2 = st
  \/ exists pref,
       (_allocate_vehicle_thread engine vehicle_size section weight st).2
       = (_perform_allocation engine vehicle_size pref weight st).2.
Proof.
  rewrite allocate_vehicle_thread_unfold.
  destruct (parking st); [now left | right].
  exists (if String.eqb section "Any" then None else Some section).
  destruct (_perform_allocation _ _ _ _ _) as [m st']. now destruct m.
Qed.

Lemma remove_vehicle_cases (pick : nat) (st : tab_state) :
  (allocated_vehicles st = [] /\ _remove_vehicle_thread pick st = (NoVehicles, st))
  \/ exists vehicle_id space_id,
       In (vehicle_id, space_id) (allocated_vehicles st)
       /\ dict_lookup vehicle_id (allocated_vehicles st) = Some space_id
       /\ nth_error (allocated_vehicles st).*1
            (pick mod length (allocated_vehicles st)) = Some vehicle_id
       /\ _remove_vehicle_thread pick st
          = (VehicleRemoved vehicle_id space_id,
             {| parking :=
                  (mark_space space_id (VBool false) VNone (parking st)).2;
                allocated_vehicles := dict_del vehicle_id (allocated_vehicles st);
                next_vehicle_id := next_vehicle_id st |}).
Proof.
  unfold _remove_vehicle_thread.
  destruct (allocated_vehicles st) as [|[k0 s0] rest] eqn:E; [now left|].
  right. set (d := (k0, s0) :: rest) in *. set (keys := d.*1).
  assert (Hlen : length keys = length d) by (subst keys; apply length_fmap).
  assert (Hlt : pick mod length keys < length keys)
    by (apply Nat.mod_upper_bound; subst keys d; simpl; lia).
  set (v := nth (pick mod length keys) keys k0).
  assert (Hv : In v keys) by (apply nth_In; assumption).
  destruct (dict_lookup_key v d Hv) as [s Hs].
  exists v, s. rewrite Hs. split; [now apply dict_lookup_In|]. split; [reflexivity|].
  split.
  - rewrite <- Hlen. subst v. now apply nth_error_nth'.
  - f_equal. f_equal.
    destruct (dict_in s (parking st)) eqn:Hin; [reflexivity|].
    now rewrite mark_space_absent.
Qed.

(** ** Invariants of a session *)

Lemma tab_step_cases (engine : allocation_engine) (st st' : tab_state) :
  tab_step engine st st' ->
  st' = st
  \/ (exists vehicle_size preferred_section weight space_id score,
        engine weight (parking st) vehicle_size preferred_section
          = Ok (Some space_id, score)
        /\ dict_in space_id (parking st) = true
        /\ st' = {| parking :=
                      (mark_space space_id (VBool true)
                         (VStr ("V" ++ str_of_int (next_vehicle_id st))) (parking st)).2;
                    allocated_vehicles :=
                      dict_set ("V" ++ str_of_int (next_vehicle_id st)) space_id
                        (allocated_vehicles st);
                    next_vehicle_id := next_vehicle_id st + 1 |})
  \/ (exists vehicle_id space_id,
        In (vehicle_id, space_id) (allocated_vehicles st)
        /\ st' = {| parking :=
                      (mark_space space_id (VBool false) VNone (parking st)).2;
                    allocated_vehicles := dict_del vehicle_id (allocated_vehicles st);
                    next_vehicle_id := next_vehicle_id st |})
  \/ (exists show, st' = reset_simulation true show st)
  \/ st' = update_visualization_data true st.
Proof.
  assert (Hperform : forall vehicle_size preferred_section weight,
            tab_step engine st
              (_perform_allocation engine vehicle_size preferred_section weight st).2 ->
            (_perform_allocation engine vehicle_size preferred_section weight st).2 = st
            \/ exists vs pref w space_id score,
                 engine w (parking st) vs pref = Ok (Some space_id, score)
                 /\ dict_in space_id (parking st) = true
                 /\ (_perform_allocation engine vehicle_size preferred_section weight st).2
                    = {| parking :=
                           (mark_space space_id (VBool true)
                              (VStr ("V" ++ str_of_int (next_vehicle_id st)))
                              (parking st)).2;
                         allocated_vehicles :=
                           dict_set ("V" ++ str_of_int (next_vehicle_id st)) space_id
                             (allocated_vehicles st);
                         next_vehicle_id := next_vehicle_id st + 1 |}).
  { intros vs pref w _.
    destruct (perform_allocation_cases engine vs pref w st)
      as [[H _] | (s & q & He & Hin & Heq)]; [now left|].
    right. exists vs, pref, w, s, q. simpl in Heq. now rewrite Heq. }
  intros Hstep.
  destruct Hstep as [vs pref w st | vs sec w st | pick st | confirm show st | show st].
  - destruct (Hperform vs pref w (step_perform_allocation _ _ _ _ _)) as [H|H];
      [now left | right; now left].
  - destruct (allocate_vehicle_thread_step engine vs sec w st) as [H|[pref H]];
      [now left|]. rewrite H.
    destruct (Hperform vs pref w (step_perform_allocation _ _ _ _ _)) as [H'|H'];
      [now left | right; now left].
  - destruct (remove_vehicle_cases pick st)
      as [[_ H] | (v & s & Hin & _ & _ & H)]; rewrite H; simpl; [now left|].
    right. right. left. now exists v, s.
  - destruct confirm; [right; right; right; left; now exists show | now left].
  - destruct show; [right; right; right; now right | now left].
Qed.

Lemma reflect_allocations_keys (allocated : list (string * string)) (pd : parking_data) :
  ((reflect_allocations allocated pd).2).*1 = pd.*1.
Proof.
  rewrite reflect_allocations_map.
  change (map fst (map (fun p : string * gmap string pyval =>
            match vehicle_at p.1 allocated with
            | Some v => (p.1, marked (VBool true) (VStr v) p.2)
            | None => p
            end) pd) = map fst pd).
  rewrite map_map. apply map_ext. intros [k r]. simpl.
  now destruct (vehicle_at k allocated).
Qed.

Lemma reset_parking_data_keys (pd : parking_data) :
  ((reset_parking_data pd).2).*1 = pd.*1.
Proof.
  rewrite reset_parking_data_map.
  change (map fst (map (fun p : string * gmap string pyval =>
            (p.1, marked (VBool false) VNone p.2)) pd) = map fst pd).
  rewrite map_map. now apply map_ext.
Qed.

Lemma reachable_keeps_spaces_and_ids_aux
    (engine : allocation_engine) (pd : parking_data) (st : tab_state) :
  reachable engine pd st ->
  (parking st).*1 = pd.*1
  /\ (1 <= next_vehicle_id st)%Z
  /\ ids_below_counter st
  /\ NoDup (allocated_vehicles st).*1.
Proof.
  induction 1 as [|st st' _ (Hkeys & Hnext & Hids & Hnd) Hstep].
  - simpl. repeat split; [lia | intros v s [] | constructor].
  - apply tab_step_cases in Hstep
      as [-> | [(vs & pref & w & s & q & _ & _ & ->)
             | [(v & s & Hin & ->) | [[show ->] | ->]]]].
    + now repeat split.
    + cbn [parking allocated_vehicles next_vehicle_id]. rewrite mark_space_keys. repeat split; try assumption; try lia.
      * intros v' s' Hin. cbn [allocated_vehicles] in Hin.
        apply dict_set_In in Hin as [[= -> ->] | Hin].
        -- exists (next_vehicle_id st). simpl. split; [lia | reflexivity].
        -- destruct (Hids v' s' Hin) as (k & Hk & ->). exists k. simpl.
           split; [lia | reflexivity].
      * now apply dict_set_NoDup.
    + cbn [parking allocated_vehicles next_vehicle_id]. rewrite mark_space_keys. repeat split; try assumption.
      * intros v' s' Hin'. cbn [allocated_vehicles] in Hin'. apply dict_del_In in Hin' as [Hin' _].
        exact (Hids v' s' Hin').
      * now apply dict_del_NoDup.
    + rewrite reset_simulation_confirmed.
      cbn [parking allocated_vehicles next_vehicle_id].
      rewrite <- reset_parking_data_map, reset_parking_data_keys.
      repeat split; [assumption | lia | intros v s [] | constructor].
    + unfold update_visualization_data.
      cbn [parking allocated_vehicles next_vehicle_id]. rewrite reflect_allocations_keys.
      now repeat split.
Qed.

(** X12. Whatever the engine answers, no method call adds, drops or
    reorders a space of the parking data; the counter stays at 1 or above;
    every allocated vehicle is named ["V"] followed by a value the counter
    has already passed, and no vehicle is allocated twice. *)
Theorem reachable_keeps_spaces_and_ids
    (engine : allocation_engine) (pd : parking_data) (st : tab_state) :
  reachable engine pd st ->
  (parking st).*1 = pd.*1
  /\ (1 <= next_vehicle_id st)%Z
  /\ ids_below_counter st
  /\ NoDup (allocated_vehicles st).*1.
Proof. apply reachable_keeps_spaces_and_ids_aux. Qed.

Lemma reachable_keeps_spaces_and_ids_witness :
  let st := (_perform_allocation first_free 1 None (3 # 10) (initial_state lot)).2 in
  (parking st).*1 = lot.*1
  /\ (1 <= next_vehicle_id st)%Z
  /\ ids_below_counter st
  /\ NoDup (allocated_vehicles st).*1.
Proof.
  apply (reachable_keeps_spaces_and_ids first_free lot).
  eapply reach_step; [apply reach_initial | apply step_perform_allocation].
Defined.

Lemma next_vehicle_fresh (st : tab_state) :
  ids_below_counter st ->
  dict_in ("V" ++ str_of_int (next_vehicle_id st)) (allocated_vehicles st) = false.
Proof.
  intros Hids. apply not_true_iff_false. intros Hd. apply dict_in_keys in Hd.
  apply in_map_iff in Hd as ([v s'] & Hv & Hd). simpl in Hv. subst v.
  destruct (Hids _ _ Hd) as (k & Hk & Hname).
  apply vehicle_name_inj in Hname. lia.
Qed.

(** X13. In a session an allocation never overwrites an earlier one: the
    identifier of the new vehicle is not yet allocated, the vehicle is
    appended to [allocated_vehicles] and the counter moves by one. *)
Theorem perform_allocation_fresh_vehicle
    (engine : allocation_engine) (pd : parking_data) (st st' : tab_state)
    (vehicle_size : Z) (preferred_section : option string) (weight : Q)
    (vehicle_id space_id : string) (score : Q) :
  reachable engine pd st ->
  _perform_allocation engine vehicle_size preferred_section weight st
    = (AllocationSuccess vehicle_id space_id score, st') ->
  vehicle_id = "V" ++ str_of_int (next_vehicle_id st)
  /\ dict_in vehicle_id (allocated_vehicles st) = false
  /\ allocated_vehicles st' = (allocated_vehicles st ++ [(vehicle_id, space_id)])%list
  /\ next_vehicle_id st' = (next_vehicle_id st + 1)%Z
  /\ In space_id pd.*1.
Proof.
  intros Hreach Hres.
  destruct (reachable_keeps_spaces_and_ids_aux engine pd st Hreach)
    as (Hkeys & _ & Hids & _).
  destruct (perform_allocation_cases engine vehicle_size preferred_section weight st)
    as [[_ Hno] | (s & q & _ & Hin & Heq)].
  - exfalso. apply (Hno vehicle_id space_id score). now rewrite Hres.
  - simpl in Heq. rewrite Hres in Heq. injection Heq as -> -> -> ->.
    pose proof (next_vehicle_fresh st Hids) as Hfresh.
    simpl. rewrite (dict_set_fresh _ _ _ Hfresh).
    repeat split; try assumption; try reflexivity.
    rewrite <- Hkeys. now apply dict_in_keys.
Qed.

Lemma perform_allocation_fresh_vehicle_witness :
  exists st',
    _perform_allocation first_free 1 None (3 # 10) (initial_state lot)
      = (AllocationSuccess "V1" "S1-A1" 1, st')
    /\ "V1" = "V" ++ str_of_int (next_vehicle_id (initial_state lot))
    /\ dict_in "V1" (allocated_vehicles (initial_state lot)) = false
    /\ allocated_vehicles st'
       = (allocated_vehicles (initial_state lot) ++ [("V1", "S1-A1")])%list
    /\ next_vehicle_id st' = (next_vehicle_id (initial_state lot) + 1)%Z
    /\ In "S1-A1" lot.*1.
Proof.
  eexists. split; [vm_compute; reflexivity|].
  apply (perform_allocation_fresh_vehicle first_free lot (initial_state lot) _
           1 None (3 # 10) "V1" "S1-A1" 1).
  - apply reach_initial.
  - vm_compute. reflexivity.
Defined.

(** ** No double booking under a sound engine *)

Lemma mark_space_In (space_id : string) (o v : pyval) (pd : parking_data)
    (k : string) (data : gmap string pyval) :
  In (k, data) (mark_space space_id o v pd).2 <->
  (k = space_id /\ exists data0, In (k, data0) pd /\ data = marked o v data0)
  \/ (k <> space_id /\ In (k, data) pd).
Proof.
  rewrite mark_space_map, in_map_iff. split.
  - intros ([k' r] & Heq & Hin). simpl in Heq.
    destruct (String.eqb_spec k' space_id) as [->|Hne]; injection Heq as <- <-.
    + left. eauto.
    + right. now split.
  - intros [(-> & data0 & Hin & ->) | (Hne & Hin)].
    + exists (space_id, data0). simpl. now rewrite String.eqb_refl.
    + exists (k, data). simpl. split; [|assumption].
      now apply String.eqb_neq in Hne as ->.
Qed.

Lemma mark_space_dict_in (space_id k : string) (o v : pyval) (pd : parking_data) :
  dict_in k (mark_space space_id o v pd).2 = dict_in k pd.
Proof. apply dict_in_same_keys, mark_space_keys. Qed.

Lemma dict_in_record (k : string) (pd : parking_data) :
  dict_in k pd = true -> exists data, In (k, data) pd.
Proof.
  intros H. apply dict_in_keys, in_map_iff in H as ([k' r] & Hk & Hin).
  simpl in Hk. subst k'. eauto.
Qed.

Lemma booked_reflect_id (st : tab_state) :
  booked st -> (reflect_allocations (allocated_vehicles st) (parking st)).2 = parking st.
Proof.
  intros Hb. rewrite reflect_allocations_map.
  rewrite <- (map_id (parking st)) at 2. apply map_ext_in. intros [k r] Hin. simpl.
  destruct (vehicle_at k (allocated_vehicles st)) as [v|] eqn:E; [|reflexivity].
  apply vehicle_at_In in E. destruct (Hb v k E) as [_ Hrec].
  destruct (Hrec r Hin) as [Ho Hv]. now rewrite marked_id.
Qed.

(** X5. The statistics computed after a redraw never count more free
    spaces than the title of that redraw: a space is free for the
    statistics when [occupied == False], for the title when [occupied] is
    falsy, and both read the records the redraw has marked.  In a state in
    which every allocated vehicle is booked on its space the same holds of
    the statistics computed before the redraw. *)
Theorem update_statistics_free_le_free_count (st : tab_state) :
  (free_spaces (update_statistics (update_visualization_data true st))
   <= title_free_count st)%Z
  /\ (booked st -> (free_spaces (update_statistics st) <= title_free_count st)%Z).
Proof.
  unfold title_free_count. split.
  - apply statistics_free_le_free_count.
  - intros Hb. unfold update_visualization_data.
    cbn [parking]. rewrite (booked_reflect_id st Hb).
    apply statistics_free_le_free_count.
Qed.

Lemma reachable_booked (engine : allocation_engine) (pd : parking_data) (st : tab_state) :
  returns_free_spaces engine -> reachable engine pd st -> booked st.
Proof.
  intros Hsound. induction 1 as [|st st' _ Hb Hstep].
  - intros v s [].
  - apply tab_step_cases in Hstep
      as [-> | [(vs & pref & w & s & q & Heng & Hin & ->)
             | [(v & s & Hin & ->) | [[show ->] | ->]]]].
    + assumption.
    + destruct (Hsound _ _ _ _ _ _ Heng) as (data0 & Hdata0 & Hfree).
      intros v' s' Hin'. cbn [parking allocated_vehicles] in *.
      rewrite mark_space_dict_in.
      apply dict_set_In in Hin' as [[= -> ->] | Hin'].
      * split; [assumption|]. intros data Hd.
        apply mark_space_In in Hd as [(_ & d0 & _ & ->) | (Hne & _)]; [|congruence].
        rewrite !marked_lookup. now split.
      * destruct (Hb v' s' Hin') as [Hs' Hrec]. split; [assumption|].
        intros data Hd.
        apply mark_space_In in Hd as [(-> & _) | (_ & Hd)]; [|now apply Hrec].
        exfalso. destruct (Hrec data0 Hdata0) as [Ho _].
        unfold is_free_space, dict_get in Hfree. rewrite Ho in Hfree. discriminate.
    + intros v' s' Hin'. cbn [parking allocated_vehicles] in *.
      rewrite mark_space_dict_in.
      apply dict_del_In in Hin' as [Hin' Hne]. simpl in Hne.
      destruct (Hb v' s' Hin') as [Hs' Hrec]. split; [assumption|].
      intros data Hd.
      apply mark_space_In in Hd as [(-> & _) | (_ & Hd)]; [|now apply Hrec].
      exfalso. destruct (dict_in_record s (parking st) Hs') as [d0 Hd0].
      destruct (Hrec d0 Hd0) as [_ Hv'].
      destruct (Hb v s Hin) as [_ Hrec']. destruct (Hrec' d0 Hd0) as [_ Hv].
      congruence.
    + rewrite reset_simulation_confirmed. intros v s [].
    + unfold update_visualization_data. intros v s Hin.
      cbn [parking allocated_vehicles] in *. rewrite (booked_reflect_id st Hb).
      now apply Hb.
Qed.

Lemma first_free_sound : returns_free_spaces first_free.
Proof.
  intros w pd vs pref s q. unfold first_free.
  destruct (List.filter (fun p => is_free_space p.2) pd) as [|[k r] rest] eqn:E;
    [discriminate|].
  intros [= <- _].
  assert (Hin : In (k, r) (List.filter (fun p => is_free_space p.2) pd))
    by (rewrite E; now left).
  apply filter_In in Hin as [Hin Hfree]. now exists r.
Qed.

(** X14. No double booking.  When the engine only proposes free spaces,
    in every state of a session each allocated vehicle stands on a space
    of the parking data that is marked occupied and carries its
    identifier, and no two allocated vehicles share a space. *)
Theorem reachable_no_double_booking
    (engine : allocation_engine) (pd : parking_data) (st : tab_state) :
  returns_free_spaces engine ->
  reachable engine pd st ->
  booked st
  /\ forall vehicle_id1 vehicle_id2 space_id,
       In (vehicle_id1, space_id) (allocated_vehicles st) ->
       In (vehicle_id2, space_id) (allocated_vehicles st) ->
       vehicle_id1 = vehicle_id2.
Proof.
  intros Hsound Hreach. pose proof (reachable_booked engine pd st Hsound Hreach) as Hb.
  split; [assumption|]. intros v1 v2 s H1 H2.
  destruct (Hb v1 s H1) as [Hin Hrec1]. destruct (Hb v2 s H2) as [_ Hrec2].
  destruct (dict_in_record s (parking st) Hin) as [data Hdata].
  destruct (Hrec1 data Hdata) as [_ E1]. destruct (Hrec2 data Hdata) as [_ E2].
  congruence.
Qed.

Lemma reachable_no_double_booking_witness :
  let st := (_perform_allocation first_free 2 None (3 # 10)
               (_perform_allocation first_free 1 None (3 # 10)
                  (initial_state lot)).2).2 in
  allocated_vehicles st = [("V1", "S1-A1"); ("V2", "G1")]
  /\ booked st
  /\ forall vehicle_id1 vehicle_id2 space_id,
       In (vehicle_id1, space_id) (allocated_vehicles st) ->
       In (vehicle_id2, space_id) (allocated_vehicles st) ->
       vehicle_id1 = vehicle_id2.
Proof.
  split; [vm_compute; reflexivity|].
  apply (reachable_no_double_booking first_free lot).
  - exact first_free_sound.
  - eapply reach_step; [eapply reach_step; [apply reach_initial|]|];
      apply step_perform_allocation.
Defined.

(** An engine that proposes a taken space books it twice. *)
Example double_booking_with_unsound_engine :
  let st := (_perform_allocation always_S1 2 None (3 # 10)
               (_perform_allocation always_S1 1 None (3 # 10)
                  (initial_state lot)).2).2 in
  allocated_vehicles st = [("V1", "S1-A1"); ("V2", "S1-A1")].
Proof. vm_compute. reflexivity. Qed.

(** X15. Under such an engine redrawing the visualization leaves the
    state of a session as it is: the writes that reflect the allocations
    only repeat what the parking data already says. *)
Theorem update_visualization_keeps_booked_state
    (engine : allocation_engine) (pd : parking_data) (st : tab_state) (show : bool) :
  returns_free_spaces engine ->
  reachable engine pd st ->
  update_visualization_data show st = st.
Proof.
  intros Hsound Hreach. pose proof (reachable_booked engine pd st Hsound Hreach) as Hb.
  unfold update_visualization_data. destruct show; [|reflexivity].
  rewrite (booked_reflect_id st Hb). now destruct st.
Qed.

Lemma update_visualization_keeps_booked_state_witness :
  let st := (_perform_allocation first_free 1 None (3 # 10) (initial_state lot)).2 in
  update_visualization_data true st = st.
Proof.
  apply (update_visualization_keeps_booked_state first_free lot).
  - exact first_free_sound.
  - eapply reach_step; [apply reach_initial | apply step_perform_allocation].
Defined.

(** ** Removal and the round trip with an allocation *)

Lemma dict_del_length {V : Type} (key : string) (d : list (string * V)) :
  NoDup d.*1 -> In key d.*1 -> S (length (dict_del key d)) = length d.
Proof.
  unfold dict_del. induction d as [|[k v] rest IH]; csimpl; [intros _ []|].
  intros Hnd Hin. apply NoDup_cons in Hnd as [Hk Hnd].
  destruct (String.eqb_spec k key) as [->|Hne]; simpl.
  - f_equal. clear IH Hin Hnd. induction rest as [|[k' v'] rest IH]; [reflexivity|].
    simpl. destruct (String.eqb_spec k' key) as [->|Hne]; simpl.
    + exfalso. apply Hk. rewrite fmap_cons. now left.
    + f_equal. apply IH. intros H. apply Hk. rewrite fmap_cons. now right.
  - f_equal. apply IH; [assumption|]. destruct Hin as [H|H]; [congruence|assumption].
Qed.

(** X16. Removing a vehicle.  With a vehicle allocated, whatever index
    the random choice draws, the method removes one allocated vehicle (it
    never fails on a missing key): the vehicle leaves
    [allocated_vehicles], which shrinks by one, its space is rewritten to
    [occupied = False], [vehicle_id = None], and every other space and
    the counter are untouched. *)
Theorem remove_vehicle_frees_its_space (pick : nat) (st : tab_state) :
  NoDup (allocated_vehicles st).*1 ->
  allocated_vehicles st <> [] ->
  exists vehicle_id space_id,
    (_remove_vehicle_thread pick st).1 = VehicleRemoved vehicle_id space_id
    /\ In (vehicle_id, space_id) (allocated_vehicles st)
    /\ (_remove_vehicle_thread pick st).2
       = {| parking :=
              map (fun p : string * gmap string pyval =>
                     if String.eqb p.1 space_id
                     then (p.1, marked (VBool false) VNone p.2) else p) (parking st);
            allocated_vehicles := dict_del vehicle_id (allocated_vehicles st);
            next_vehicle_id := next_vehicle_id st |}
    /\ ~ In vehicle_id (dict_del vehicle_id (allocated_vehicles st)).*1
    /\ S (length (dict_del vehicle_id (allocated_vehicles st)))
       = length (allocated_vehicles st).
Proof.
  intros Hnd Hne.
  destruct (remove_vehicle_cases pick st)
    as [[Hnil _] | (v & s & Hin & _ & _ & Heq)]; [contradiction|].
  exists v, s. rewrite Heq. cbn [fst snd]. rewrite mark_space_map.
  repeat split; try assumption.
  - intros H. apply in_map_iff in H as ([v' s'] & Hv & H). simpl in Hv. subst v'.
    apply dict_del_In in H as [_ H]. now apply H.
  - apply dict_del_length; [assumption|]. apply in_map_iff. now exists (v, s).
Qed.

Lemma remove_vehicle_frees_its_space_witness :
  let st := {| parking := lot;
               allocated_vehicles := [("V1", "S1-A1"); ("V2", "G1")];
               next_vehicle_id := 3 |} in
  exists vehicle_id space_id,
    (_remove_vehicle_thread 5 st).1 = VehicleRemoved vehicle_id space_id
    /\ In (vehicle_id, space_id) (allocated_vehicles st)
    /\ (_remove_vehicle_thread 5 st).2
       = {| parking :=
              map (fun p : string * gmap string pyval =>
                     if String.eqb p.1 space_id
                     then (p.1, marked (VBool false) VNone p.2) else p) (parking st);
            allocated_vehicles := dict_del vehicle_id (allocated_vehicles st);
            next_vehicle_id := next_vehicle_id st |}
    /\ ~ In vehicle_id (dict_del vehicle_id (allocated_vehicles st)).*1
    /\ S (length (dict_del vehicle_id (allocated_vehicles st)))
       = length (allocated_vehicles st).
Proof.
  apply (remove_vehicle_frees_its_space 5).
  - apply (bool_decide_unpack _). vm_compute. exact I.
  - discriminate.
Defined.

(** X17. Allocating a vehicle and removing it again.  In a session, when
    an allocation succeeds and the vehicle just allocated is the one drawn
    for removal, [allocated_vehicles] is back to what it was, the space is
    free again ([occupied = False], [vehicle_id = None]), no other space
    has changed, and only the counter has moved on. *)
Theorem allocate_then_remove
    (engine : allocation_engine) (pd : parking_data) (st st' : tab_state)
    (vehicle_size : Z) (preferred_section : option string) (weight : Q)
    (vehicle_id space_id : string) (score : Q) :
  reachable engine pd st ->
  _perform_allocation engine vehicle_size preferred_section weight st
    = (AllocationSuccess vehicle_id space_id score, st') ->
  _remove_vehicle_thread (length (allocated_vehicles st)) st'
  = (VehicleRemoved vehicle_id space_id,
     {| parking :=
          map (fun p : string * gmap string pyval =>
                 if String.eqb p.1 space_id
                 then (p.1, marked (VBool false) VNone p.2) else p) (parking st);
        allocated_vehicles := allocated_vehicles st;
        next_vehicle_id := next_vehicle_id st + 1 |}).
Proof.
  intros Hreach Hres.
  destruct (reachable_keeps_spaces_and_ids_aux engine pd st Hreach)
    as (_ & _ & Hids & Hnd).
  pose proof (next_vehicle_fresh st Hids) as Hfresh.
  destruct (perform_allocation_cases engine vehicle_size preferred_section weight st)
    as [[_ Hno] | (s & q & _ & Hin & Heq)].
  { exfalso. apply (Hno vehicle_id space_id score). now rewrite Hres. }
  cbv zeta in Heq. rewrite Hres in Heq. injection Heq as -> -> -> ->.
  set (v := "V" ++ str_of_int (next_vehicle_id st)) in *.
  rewrite (dict_set_fresh _ _ _ Hfresh).
  set (st1 := {| parking := (mark_space s (VBool true) (VStr v) (parking st)).2;
                 allocated_vehicles := (allocated_vehicles st ++ [(v, s)])%list;
                 next_vehicle_id := next_vehicle_id st + 1 |}).
  destruct (remove_vehicle_cases (length (allocated_vehicles st)) st1)
    as [[Hnil _] | (v0 & s0 & Hin0 & _ & Hnth & Heq)].
  { exfalso. revert Hnil. subst st1. simpl. now destruct (allocated_vehicles st). }
  subst st1. cbn [parking allocated_vehicles next_vehicle_id] in *.
  assert (v0 = v) as ->.
  { rewrite length_app, fmap_app in Hnth. simpl in Hnth.
    rewrite Nat.mod_small in Hnth by lia.
    rewrite nth_error_app2 in Hnth by (rewrite length_fmap; lia).
    rewrite length_fmap, Nat.sub_diag in Hnth. simpl in Hnth. congruence. }
  assert (s0 = s) as ->.
  { apply in_app_iff in Hin0 as [H|[[= ->]|[]]]; [|reflexivity].
    exfalso. apply not_true_iff_false in Hfresh. apply Hfresh, dict_in_keys.
    apply in_map_iff. now exists (v, s0). }
  refine (eq_trans Heq _). f_equal. f_equal.
  - rewrite !mark_space_map, map_map. apply map_ext. intros [k r]. simpl.
    destruct (String.eqb k s) eqn:E; simpl; rewrite E; [|reflexivity].
    now rewrite marked_marked.
  - now apply dict_del_last.
Qed.

Lemma allocate_then_remove_witness :
  exists st',
    _perform_allocation first_free 1 None (3 # 10) (initial_state lot)
      = (AllocationSuccess "V1" "S1-A1" 1, st')
    /\ _remove_vehicle_thread (length (allocated_vehicles (initial_state lot))) st'
       = (VehicleRemoved "V1" "S1-A1",
          {| parking :=
               map (fun p : string * gmap string pyval =>
                      if String.eqb p.1 "S1-A1"
                      then (p.1, marked (VBool false) VNone p.2) else p)
                 (parking (initial_state lot));
             allocated_vehicles := allocated_vehicles (initial_state lot);
             next_vehicle_id := next_vehicle_id (initial_state lot) + 1 |}).
Proof.
  eexists. split; [vm_compute; reflexivity|].
  apply (allocate_then_remove first_free lot (initial_state lot) _ 1 None (3 # 10)
           "V1" "S1-A1" 1).
  - apply reach_initial.
  - vm_compute. reflexivity.
Defined.

(** ** Free groups are free spaces *)

Lemma candidate_is_free_space (data : gmap string pyval) :
  candidate data = true -> is_free_space data = true.
Proof.
  intros H. apply candidate_free_group in H as [_ H].
  unfold occupied_flag in H. unfold is_free_space, dict_get.
  destruct (data !! "occupied") as [occ|]; simpl in *; [|discriminate].
  injection H as ->. reflexivity.
Qed.

Lemma commit_allocation_message (vehicle_id : string) (answer : option string * Q)
    (st : tab_state) :
  (commit_allocation vehicle_id answer st).1 <> NoFreeSpaces
  /\ (commit_allocation vehicle_id answer st).1 <> NoParkingData.
Proof.
  unfold commit_allocation. destruct answer as [[s|] q]; simpl.
  - destruct (negb (String.eqb s "")); [|split; discriminate].
    destruct (dict_in s (parking st)); split; discriminate.
  - split; discriminate.
Qed.

(** X18. A free group is a free space for the allocation methods.  When
    [allocate_group] returns a group on the parking data of the tab, that
    group passes the free-space test of [_perform_allocation] and
    [_allocate_vehicle_thread], which therefore consult the engine instead
    of reporting that no space is free or that there is no data. *)
Theorem allocate_group_result_is_free_space
    (st : tab_state) (vehicle_id : pyval) (vehicle_size : Z)
    (group_id : string) (score : Q)
    (engine : allocation_engine) (size : Z) (preferred_section : option string)
    (section : string) (weight : Q) :
  (allocate_group vehicle_id vehicle_size (parking st)).1 = Ok (Some group_id, score) ->
  In group_id (List.filter (fun p => is_free_space p.2) (parking st)).*1
  /\ (_perform_allocation engine size preferred_section weight st).1 <> NoFreeSpaces
  /\ (_allocate_vehicle_thread engine size section weight st).1 <> NoFreeSpaces
  /\ (_allocate_vehicle_thread engine size section weight st).1 <> NoParkingData.
Proof.
  intros Hres. apply allocate_group_Ok in Hres as [_ Hloop].
  apply best_group_loop_outcome in Hloop
    as [[[=] _] | (i & gi & di & Hi & Hg & _)].
  simpl in Hg. injection Hg as <-.
  assert (Hin : In (group_id, di) (List.filter (fun p => is_free_space p.2) (parking st))).
  { assert (Hc : In (group_id, di) (candidates (parking st)))
      by (apply list_elem_of_In, list_elem_of_lookup; eauto).
    apply candidates_In in Hc as [Hpd Hc]. apply filter_In. split; [assumption|].
    now apply candidate_is_free_space. }
  split; [apply in_map_iff; now exists (group_id, di)|].
  assert (Hperform : forall pref,
            (_perform_allocation engine size pref weight st).1 <> NoFreeSpaces
            /\ (_perform_allocation engine size pref weight st).1 <> NoParkingData).
  { intros pref. unfold _perform_allocation.
    destruct (List.filter (fun p => is_free_space p.2) (parking st)); [destruct Hin|].
    destruct (engine weight (parking st) size pref) as [answer|e].
    - apply commit_allocation_message.
    - split; discriminate. }
  split; [apply Hperform|].
  rewrite allocate_vehicle_thread_unfold.
  destruct (parking st) as [|p rest] eqn:E; [destruct Hin|].
  destruct (Hperform (if String.eqb section "Any" then None else Some section))
    as [H1 H2].
  destruct (_perform_allocation _ _ _ _ _) as [m st']. simpl in H1, H2.
  destruct m; simpl; split; (assumption || discriminate).
Qed.

Lemma allocate_group_result_is_free_space_witness :
  exists score,
    (allocate_group (VStr "V1") 2 (parking (initial_state lot))).1
      = Ok (Some "G1", score)
    /\ In "G1" (List.filter (fun p => is_free_space p.2) (parking (initial_state lot))).*1
    /\ (_perform_allocation first_free 2 None (3 # 10) (initial_state lot)).1
       <> NoFreeSpaces
    /\ (_allocate_vehicle_thread first_free 2 "Any" (3 # 10) (initial_state lot)).1
       <> NoFreeSpaces
    /\ (_allocate_vehicle_thread first_free 2 "Any" (3 # 10) (initial_state lot)).1
       <> NoParkingData.
Proof.
  assert (H : exists score,
             (allocate_group (VStr "V1") 2 (parking (initial_state lot))).1
             = Ok (Some "G1", score))
    by (eexists; vm_compute; reflexivity).
  destruct H as [score H]. exists score. split; [exact H|].
  exact (allocate_group_result_is_free_space (initial_state lot) (VStr "V1") 2 "G1"
           score first_free 2 None "Any" (3 # 10) H).
Defined.

(** ** ensure_parking_data *)

Lemma all_digits_uint (u : Decimal.uint) :
  all_digits (NilEmpty.string_of_uint u) = true.
Proof. induction u; simpl; auto. Qed.

Lemma all_digits_str_of_int (n : Z) : (0 <= n)%Z -> all_digits (str_of_int n) = true.
Proof.
  unfold str_of_int. destruct n as [|p|p]; [reflexivity | intros _ | lia].
  simpl. unfold NilZero.string_of_uint.
  pose proof (all_digits_uint (Pos.to_uint p)) as H.
  now destruct (Pos.to_uint p).
Qed.

Lemma digits_before_dash (a b sa sb : string) :
  all_digits a = true -> all_digits b = true ->
  a ++ "-" ++ sa = b ++ "-" ++ sb -> a = b.
Proof.
  revert b. induction a as [|c a IH]; intros [|c' b]; simpl.
  - reflexivity.
  - intros _ Hb [= <- _]. now vm_compute in Hb.
  - intros Ha _ [= -> _]. now vm_compute in Ha.
  - intros Ha Hb [= <- H]. apply andb_prop in Ha as [_ Ha].
    apply andb_prop in Hb as [_ Hb]. f_equal. now apply IH.
Qed.

Lemma space_name_inj (i j : Z) (sa sb : string) :
  (0 <= i)%Z -> (0 <= j)%Z ->
  "S" ++ str_of_int i ++ "-" ++ sa = "S" ++ str_of_int j ++ "-" ++ sb -> i = j.
Proof.
  intros Hi Hj. simpl. intros [= H].
  apply str_of_int_inj.
  apply (digits_before_dash _ _ sa sb); [now apply all_digits_str_of_int .. | exact H].
Qed.

Lemma expected_spaces_names (now : pyval) (image_width image_height i : Z)
    (posList : list (Z * Z * Z * Z)) (k : string) :
  In k (expected_spaces now image_width image_height i posList).*1 ->
  exists n section, (i < n)%Z /\ k = "S" ++ str_of_int n ++ "-" ++ section.
Proof.
  revert i. induction posList as [|[[[x y] w] h] rest IH]; intros i; csimpl; [intros []|].
  intros [<-|H].
  - exists (i + 1)%Z, (section_of image_width image_height x y). split; [lia | reflexivity].
  - destruct (IH (i + 1)%Z H) as (n & sec & Hn & ->). exists n, sec. split; [lia | reflexivity].
Qed.

Lemma expected_spaces_NoDup (now : pyval) (image_width image_height i : Z)
    (posList : list (Z * Z * Z * Z)) :
  (0 <= i)%Z -> NoDup (expected_spaces now image_width image_height i posList).*1.
Proof.
  revert i. induction posList as [|[[[x y] w] h] rest IH]; intros i Hi; csimpl.
  - constructor.
  - apply NoDup_cons. split; [|apply IH; lia].
    intros Hin. apply list_elem_of_In, expected_spaces_names in Hin
      as (n & sec & Hn & Heq).
    apply space_name_inj in Heq; lia.
Qed.

Lemma ensure_loop_expected (now : pyval) (image_width image_height : Z)
    (posList : list (Z * Z * Z * Z)) :
  forall (i : Z) (pd : parking_data),
    (0 <= i)%Z ->
    (forall k, In k pd.*1 ->
       exists n section, (0 <= n <= i)%Z /\ k = "S" ++ str_of_int n ++ "-" ++ section) ->
    ensure_loop now image_width image_height i posList pd
    = (pd ++ expected_spaces now image_width image_height i posList)%list.
Proof.
  induction posList as [|[[[x y] w] h] rest IH]; intros i pd Hi Hpd.
  - simpl. now rewrite app_nil_r.
  - cbn [ensure_loop expected_spaces].
    set (sec := section_of image_width image_height x y).
    set (key := "S" ++ str_of_int (i + 1) ++ "-" ++ sec).
    assert (Hfresh : dict_in key pd = false).
    { apply not_true_iff_false. intros H. apply dict_in_keys in H.
      destruct (Hpd key H) as (n & sec' & Hn & Heq). subst key.
      apply space_name_inj in Heq; lia. }
    rewrite (dict_set_fresh _ _ _ Hfresh), IH; [|lia|].
    + now rewrite <- app_assoc.
    + intros k Hk. rewrite fmap_app in Hk. apply in_app_iff in Hk as [Hk|[<-|[]]].
      * destruct (Hpd k Hk) as (n & sec' & Hn & ->). exists n, sec'. split; [lia|reflexivity].
      * exists (i + 1)%Z, sec. split; [lia | reflexivity].
Qed.

Lemma expected_spaces_lookup (now : pyval) (image_width image_height : Z)
    (posList : list (Z * Z * Z * Z)) :
  forall (i : Z) (n : nat) x y w h,
    posList !! n = Some (x, y, w, h) ->
    expected_spaces now image_width image_height i posList !! n
    = Some ("S" ++ str_of_int (i + Z.of_nat n + 1) ++ "-"
              ++ section_of image_width image_height x y,
            new_space now (section_of image_width image_height x y) (x, y, w, h)).
Proof.
  induction posList as [|[[[x0 y0] w0] h0] rest IH]; intros i n x y w h H.
  - now rewrite lookup_nil in H.
  - destruct n as [|n].
    + injection H as -> -> -> ->. cbn [expected_spaces].
      change (Z.of_nat 0) with 0%Z. now rewrite Z.add_0_r.
    + rewrite Nat2Z.inj_succ. cbn [expected_spaces].
      change (rest !! n = Some (x, y, w, h)) in H.
      etransitivity; [apply (IH (i + 1)%Z n x y w h H)|].
      now replace (i + 1 + Z.of_nat n + 1)%Z with (i + Z.succ (Z.of_nat n) + 1)%Z by lia.
Qed.

Lemma expected_spaces_length (now : pyval) (image_width image_height i : Z)
    (posList : list (Z * Z * Z * Z)) :
  length (expected_spaces now image_width image_height i posList) = length posList.
Proof.
  revert i. induction posList as [|[[[x y] w] h] rest IH]; intros i; simpl;
    [reflexivity | now rewrite IH].
Qed.

(** X19. Creating the parking data loses no position.  On a manager
    without parking data [ensure_parking_data] creates exactly one record
    per position, in the order of the positions, the [n]-th (from 0) under
    the identifier [S<n+1>-<section>]; the identifiers are pairwise
    different, so that no record overwrites another.  Existing parking
    data is left as it is. *)
Theorem ensure_parking_data_one_record_per_position
    (now : pyval) (image_width image_height : Z) (posList : list (Z * Z * Z * Z)) :
  exists pd,
    ensure_parking_data now image_width image_height posList None = Some pd
    /\ length pd = length posList
    /\ NoDup pd.*1
    /\ (forall (n : nat) x y w h,
          posList !! n = Some (x, y, w, h) ->
          pd !! n
          = Some ("S" ++ str_of_int (Z.of_nat n + 1) ++ "-"
                    ++ section_of image_width image_height x y,
                  new_space now (section_of image_width image_height x y) (x, y, w, h)))
    /\ forall old,
         ensure_parking_data now image_width image_height posList (Some old) = Some old.
Proof.
  exists (expected_spaces now image_width image_height 0 posList).
  split; [|split; [|split; [|split]]].
  - unfold ensure_parking_data. f_equal.
    rewrite ensure_loop_expected; [reflexivity | lia | intros k []].
  - apply expected_spaces_length.
  - apply expected_spaces_NoDup. lia.
  - intros n x y w h H. now rewrite (expected_spaces_lookup _ _ _ _ 0 n x y w h H).
  - reflexivity.
Qed.

(** Nine positions and more: the identifiers ["S1-.."] and ["S10-.."]
    stay apart. *)
Example ensure_parking_data_sample :
  (default [] (ensure_parking_data VNone 640 480
     [(10, 20, 30, 40); (400, 300, 30, 40); (400, 20, 30, 40); (10, 300, 30, 40);
      (10, 20, 30, 40); (10, 20, 30, 40); (10, 20, 30, 40); (10, 20, 30, 40);
      (10, 20, 30, 40); (10, 20, 30, 40)]%Z None)).*1
  = ["S1-A1"; "S2-B2"; "S3-B1"; "S4-A2"; "S5-A1"; "S6-A1"; "S7-A1"; "S8-A1";
     "S9-A1"; "S10-A1"].
Proof. vm_compute. reflexivity. Qed.

Lemma new_space_fields (now : pyval) (section : string) (pos : Z * Z * Z * Z) :
  new_space now section pos !! "is_group" = None
  /\ new_space now section pos !! "occupied" = Some (VBool true)
  /\ new_space now section pos !! "vehicle_id" = Some VNone
  /\ new_space now section pos !! "distance_to_entrance"
     = Some (VInt (pos.1.1.1 + pos.1.1.2)).
Proof.
  destruct pos as [[[x y] w] h]. unfold new_space. simpl.
  repeat split; now simplify_map_eq.
Qed.

Lemma expected_spaces_records (now : pyval) (image_width image_height i : Z)
    (posList : list (Z * Z * Z * Z)) :
  Forall (fun p => exists section pos, p.2 = new_space now section pos)
    (expected_spaces now image_width image_height i posList).
Proof.
  revert i. induction posList as [|[[[x y] w] h] rest IH]; intros i; simpl.
  - constructor.
  - constructor; [|apply IH].
    now exists (section_of image_width image_height x y), (x, y, w, h).
Qed.

Lemma allocate_group_without_groups
    (vehicle_id : pyval) (vehicle_size : Z) (pd : parking_data) :
  Forall (fun p => p.2 !! "is_group" = None) pd ->
  (allocate_group vehicle_id vehicle_size pd).1 = Ok (None, 0%Q).
Proof.
  intros H.
  assert (Hnil : candidates pd = []).
  { apply candidates_nil. eapply Forall_impl; [exact H|].
    intros [k r] Hr [Hg _]. simpl in *.
    unfold is_group_flag, dict_get in Hg. rewrite Hr in Hg. discriminate. }
  apply allocate_group_Ok. rewrite Hnil. split; [|reflexivity].
  rewrite <- Hnil. apply free_groups_of_total.
  eapply Forall_impl; [exact H|]. intros [k r] Hr. simpl in *.
  exists false. now apply is_free_group_no_flag.
Qed.

Lemma filter_none {A : Type} (f : A -> bool) (l : list A) :
  Forall (fun a => f a = false) l -> List.filter f l = [].
Proof.
  induction 1 as [|a l Ha _ IH]; simpl; [reflexivity | now rewrite Ha].
Qed.

(** X20. Freshly created parking data has nothing to allocate: every
    record is created occupied and none is a group.  On it the allocation
    methods report that no space is free without consulting the engine,
    both free counts are 0, and [allocate_group] returns [(None, 0)] for
    every vehicle, also after a reset has freed every space. *)
Theorem fresh_parking_data_has_nothing_free
    (now : pyval) (image_width image_height : Z) (posList : list (Z * Z * Z * Z))
    (pd : parking_data) :
  ensure_parking_data now image_width image_height posList None = Some pd ->
  (forall engine vehicle_size preferred_section weight,
     _perform_allocation engine vehicle_size preferred_section weight (initial_state pd)
     = (NoFreeSpaces, initial_state pd))
  /\ free_count pd = 0%Z
  /\ free_spaces (update_statistics (initial_state pd)) = 0%Z
  /\ (forall vehicle_id vehicle_size,
        (allocate_group vehicle_id vehicle_size pd).1 = Ok (None, 0%Q))
  /\ (forall vehicle_id vehicle_size,
        (allocate_group vehicle_id vehicle_size
           (parking (reset_simulation true true (initial_state pd)))).1
        = Ok (None, 0%Q)).
Proof.
  unfold ensure_parking_data. intros [= <-].
  rewrite ensure_loop_expected; [|lia | intros k []]. simpl app.
  pose proof (expected_spaces_records now image_width image_height 0 posList) as Hrec.
  set (pd := expected_spaces now image_width image_height 0 posList) in *.
  assert (Hfree : List.filter (fun p => is_free_space p.2) pd = []).
  { apply filter_none. eapply Forall_impl; [exact Hrec|].
    intros [k r] (sec & pos & ->). simpl.
    destruct (new_space_fields now sec pos) as (_ & Ho & _).
    unfold is_free_space, dict_get. now rewrite Ho. }
  split; [|split; [|split; [|split]]].
  - intros engine vs pref w. unfold _perform_allocation. simpl parking. now rewrite Hfree.
  - unfold free_count. now rewrite Hfree.
  - unfold update_statistics. simpl. rewrite filter_none; [reflexivity|].
    eapply Forall_impl; [exact Hrec|]. intros [k r] (sec & pos & ->). simpl.
    destruct (new_space_fields now sec pos) as (_ & Ho & _).
    unfold dict_get. now rewrite Ho.
  - intros vid vs. apply allocate_group_without_groups.
    eapply Forall_impl; [exact Hrec|]. intros [k r] (sec & pos & ->). simpl.
    apply new_space_fields.
  - intros vid vs. apply allocate_group_without_groups.
    rewrite reset_simulation_confirmed. cbn [parking].
    apply Forall_map. eapply Forall_impl; [exact Hrec|].
    intros [k r] (sec & pos & ->). simpl. rewrite marked_lookup. simpl.
    apply new_space_fields.
Qed.

Lemma fresh_parking_data_has_nothing_free_witness :
  exists pd,
    ensure_parking_data VNone 640 480 [(10, 20, 30, 40); (400, 300, 30, 40)]%Z None
      = Some pd
    /\ pd.*1 = ["S1-A1"; "S2-B2"]
    /\ free_count pd = 0%Z
    /\ (forall vehicle_id vehicle_size,
          (allocate_group vehicle_id vehicle_size pd).1 = Ok (None, 0%Q)).
Proof.
  eexists. split; [reflexivity|]. split; [vm_compute; reflexivity|].
  destruct (fresh_parking_data_has_nothing_free VNone 640 480
              [(10, 20, 30, 40); (400, 300, 30, 40)]%Z _ eq_refl)
    as (_ & H1 & _ & H2 & _).
  split; [exact H1 | exact H2].
Defined.

(** * More on the score of allocate_group *)





Lemma spec_size_match_exact (n : Z) : (1 <= n)%Z -> (spec_size_match n n == 1)%Q.
Proof.
  intros Hn. unfold spec_size_match. rewrite Z.sub_diag.
  change (inject_Z (Z.abs 0)) with 0%Q. unfold Qdiv. rewrite Qmult_0_l. reflexivity.
Qed.

Lemma spec_size_match_mismatch (member_count vehicle_size : Z) :
  (0 <= member_count)%Z -> (1 <= vehicle_size)%Z -> member_count <> vehicle_size ->
  (spec_size_match member_count vehicle_size < 1)%Q.
Proof.
  intros Hmc Hvs Hne. unfold spec_size_match.
  assert (0 < inject_Z (Z.max member_count vehicle_size))%Q
    by (apply inject_Z_pos; lia).
  assert (0 < inject_Z (Z.abs (member_count - vehicle_size)))%Q
    by (apply inject_Z_pos; lia).
  assert (0 < inject_Z (Z.abs (member_count - vehicle_size))
              / inject_Z (Z.max member_count vehicle_size))%Q
    by (apply Qlt_shift_div_l; lra).
  lra.
Qed.

(** X22. An exact fit is never worse.  At the same recorded distance, of
    two groups that both get a score, the one with exactly as many member
    spaces as the vehicle size scores at least as high as one with any
    other number of member spaces; strictly higher when the distance score
    of the two lies between 0 and 1 and neither the vehicle size nor the
    other number of member spaces exceeds 1000000. *)
Theorem group_score_prefers_exact_size
    (vehicle_size : Z) (exact other : gmap string pyval)
    (members members' : list pyval) (s1 s2 : Q) :
  (1 <= vehicle_size)%Z ->
  exact !! "member_spaces" = Some (VList members) ->
  other !! "member_spaces" = Some (VList members') ->
  Z.of_nat (length members) = vehicle_size ->
  Z.of_nat (length members') <> vehicle_size ->
  other !! "distance_to_entrance" = exact !! "distance_to_entrance" ->
  group_score vehicle_size exact = Ok s1 ->
  group_score vehicle_size other = Ok s2 ->
  (s2 <= s1)%Q
  /\ (forall ds, distance_score exact = Ok ds -> (0 <= ds)%Q -> (ds <= 1)%Q ->
        (vehicle_size <= 1000000)%Z -> (Z.of_nat (length members') <= 1000000)%Z ->
        (s2 < s1)%Q).
Proof.
  intros Hvs Hm Hm' Hlen Hlen' Hd Hs1 Hs2.
  apply group_score_Ok in Hs1 as (sm & ds & Hsm & Hds & ->).
  apply size_match_Ok in Hsm as (mc & Hmc & _ & ->).
  unfold dict_get in Hmc. rewrite Hm in Hmc. simpl in Hmc. injection Hmc as <-.
  rewrite Hlen.
  apply group_score_Ok in Hs2 as (sm' & ds' & Hsm' & Hds' & ->).
  apply size_match_Ok in Hsm' as (mc' & Hmc' & _ & ->).
  unfold dict_get in Hmc'. rewrite Hm' in Hmc'. simpl in Hmc'. injection Hmc' as <-.
  assert (ds' = ds) as ->.
  { unfold distance_score, dict_get in Hds, Hds'. rewrite Hd in Hds'. congruence. }
  pose proof (spec_size_match_exact vehicle_size Hvs).
  pose proof (spec_size_match_mismatch (Z.of_nat (length members')) vehicle_size
                ltac:(lia) Hvs Hlen').
  split; [lra|]. intros; lra.
Qed.

Lemma group_score_prefers_exact_size_witness :
  exists s1 s2,
    group_score 2 (mk_group false ["S1"; "S2"] 100) = Ok s1
    /\ group_score 2 (mk_group false ["S1"; "S2"; "S3"] 100) = Ok s2
    /\ (s2 <= s1)%Q /\ (s2 < s1)%Q.
Proof.
  assert (H : exists s1, group_score 2 (mk_group false ["S1"; "S2"] 100) = Ok s1)
    by (eexists; vm_compute; reflexivity).
  assert (H' : exists s2,
             group_score 2 (mk_group false ["S1"; "S2"; "S3"] 100) = Ok s2)
    by (eexists; vm_compute; reflexivity).
  destruct H as [s1 H1]. destruct H' as [s2 H2]. exists s1, s2.
  split; [exact H1|]. split; [exact H2|].
  destruct (group_score_prefers_exact_size 2
              (mk_group false ["S1"; "S2"] 100) (mk_group false ["S1"; "S2"; "S3"] 100)
              [VStr "S1"; VStr "S2"] [VStr "S1"; VStr "S2"; VStr "S3"] s1 s2
              ltac:(lia) eq_refl eq_refl eq_refl ltac:(discriminate) eq_refl H1 H2)
    as [Hle Hlt].
  split; [exact Hle|].
  eapply Hlt; [vm_compute; reflexivity | discriminate | discriminate
              | lia | simpl; lia].
Defined.

(** X23. A group that was handed out and marked occupied is not handed
    out again: once the two writes of an allocation have been applied to a
    group, no call of [allocate_group] returns that group, for any
    vehicle. *)
Theorem allocate_group_skips_marked_group
    (pd : parking_data) (vehicle_id : pyval) (vehicle_size : Z)
    (group_id : string) (score : Q) (vehicle : pyval) :
  (allocate_group vehicle_id vehicle_size
     (mark_space group_id (VBool true) vehicle pd).2).1
  <> Ok (Some group_id, score).
Proof.
  intros Hres. apply allocate_group_Ok in Hres as [_ Hloop].
  apply best_group_loop_outcome in Hloop
    as [[[=] _] | (i & gi & di & Hi & Hg & _)].
  simpl in Hg. injection Hg as <-.
  assert (Hc : In (group_id, di)
                 (candidates (mark_space group_id (VBool true) vehicle pd).2))
    by (apply list_elem_of_In, list_elem_of_lookup; eauto).
  apply candidates_In in Hc as [Hin Hc]. simpl in Hc.
  apply mark_space_In in Hin as [(_ & d0 & _ & ->) | (Hne & _)]; [|congruence].
  apply candidate_free_group in Hc as [_ Ho].
  unfold occupied_flag in Ho. rewrite marked_lookup in Ho. discriminate.
Qed.

(** The best group of [lot] goes to the first vehicle, the second best to
    the next one. *)
Example allocate_group_twice :
  (exists s, (allocate_group (VStr "V1") 2 lot).1 = Ok (Some "G1", s))
  /\ (exists s, (allocate_group (VStr "V2") 2
                   (mark_space "G1" (VBool true) (VStr "V1") lot).2).1
                = Ok (Some "G2", s)).
Proof. split; eexists; vm_compute; reflexivity. Qed.
